(** * cf-broker-proxy: the broker's request/response mapping, verified

    A shallow embedding of [broker.CFBrokerProxy] (package [broker]) and of
    the service-key and service-plan functions of the vendored control-API
    client (package [ccv2]) that the broker calls.

    Go strings are byte sequences and [len] counts bytes; they are embedded
    as [string], whose [String.length] counts the same bytes.  A Go function
    returning [(value, error)] returns both components, and so does its
    embedding: the error is an [option error], [None] for [nil]. *)

From Stdlib Require Import String Ascii List Bool Arith ZArith Lia.
Import ListNotations.
Open Scope string_scope.
Open Scope list_scope.

(** ** Untyped JSON mappings ([map[string]interface{}]) *)

#[warnings="-register-all"] Inductive JSONValue : Type :=
| JNull
| JBool (b : bool)
| JNumber (n : Z)
| JString (s : string)
| JArray (items : list JSONValue)
| JObject (fields : list (string * JSONValue)).

(** A [map[string]interface{}]; [make(map[string]interface{})] is [[]]. *)
Definition JSONMap : Type := list (string * JSONValue).

(** ** Package [constant] *)

Module constant.

Definition LastOperationState : Type := string.

(** Modelled from the spec: the declaration of [LastOperationInProgress]
    (package [ccv2/constant]) is not among the sources; the spec names the
    state it stands for, "in progress". *)
Definition LastOperationInProgress : LastOperationState := "in progress".

End constant.

(** ** Package [ccv2]: the entities of the control API

    [ServiceKey] and [ServicePlan] are declared in the sources.  The
    declarations of [Service], [Space], [ServiceInstance] and [Filter] are
    not; they carry the fields the broker reads or writes. *)

Module ccv2.

Definition Warnings : Type := list string.

Module Filter.
Record t : Type := mk
  { Type_ : string;
    Operator : string;
    Values : list string }.
End Filter.

Module Service.
Record t : Type := mk
  { GUID : string;
    Label : string;
    Description : string }.
End Service.

Module ServicePlan.
Record t : Type := mk
  { GUID : string;
    Name : string;
    ServiceGUID : string;
    Public : bool;
    Description : string }.
End ServicePlan.

Module ServiceKey.
Record t : Type := mk
  { GUID : string;
    Name : string;
    ServiceInstanceGUID : string;
    Credentials : JSONMap }.
(** [ServiceKey{}] *)
Definition zero : t := mk "" "" "" [].
End ServiceKey.

Module Space.
Record t : Type := mk
  { GUID : string;
    Name : string }.
End Space.

Module LastOperation.
Record t : Type := mk
  { State : constant.LastOperationState;
    Description : string }.
End LastOperation.

Module ServiceInstance.
Record t : Type := mk
  { GUID : string;
    Name : string;
    DashboardURL : string;
    LastOperation : LastOperation.t }.
(** [ServiceInstance{}] *)
Definition zero : t := mk "" "" "" (LastOperation.mk "" "").
End ServiceInstance.

(** An [interface{}] handed by [paginate] to its callback.  [paginate]
    decodes every resource into the type of the object it is given, so a
    listing of keys meets keys only and a listing of plans plans only; the
    callbacks keep the other branch of their type assertion, as the source
    has it. *)
Inductive Item : Type :=
| ItemServiceKey (k : ServiceKey.t)
| ItemServicePlan (p : ServicePlan.t)
| ItemOther (kind : string).

End ccv2.

(** ** Errors

    A Go [error] is either built by the broker ([errors.New],
    [fmt.Errorf]), built by the client ([ccerror.UnknownObjectInListError])
    or reported by the control API through the client. *)

Inductive error : Type :=
| errorString (msg : string)
| UnknownObjectInListError (Expected Unexpected : ccv2.Item)
| upstreamError (status : Z) (detail : string).

(** ** Package [brokerapi]: the shapes of the broker protocol

    The package is not among the sources; each record carries the fields
    the broker sets (all others keep their zero value). *)

Module brokerapi.

Module ServicePlan.
Record t : Type := mk
  { ID : string;
    Name : string;
    Description : string }.
End ServicePlan.

Module Service.
Record t : Type := mk
  { ID : string;
    Name : string;
    Description : string;
    Bindable : bool;
    PlanUpdatable : bool;
    Plans : list ServicePlan.t }.
End Service.

Module ProvisionDetails.
Record t : Type := mk
  { ServiceID : string;
    PlanID : string;
    OrganizationGUID : string;
    SpaceGUID : string }.
End ProvisionDetails.

Module ProvisionedServiceSpec.
Record t : Type := mk
  { IsAsync : bool;
    DashboardURL : string;
    OperationData : string }.
Definition zero : t := mk false "" "".
End ProvisionedServiceSpec.

Module DeprovisionDetails.
Record t : Type := mk
  { PlanID : string;
    ServiceID : string }.
End DeprovisionDetails.

Module DeprovisionServiceSpec.
Record t : Type := mk
  { IsAsync : bool;
    OperationData : string }.
Definition zero : t := mk false "".
End DeprovisionServiceSpec.

Module BindDetails.
Record t : Type := mk
  { AppGUID : string;
    PlanID : string;
    ServiceID : string }.
End BindDetails.

Module Binding.
(** [Credentials] is an [interface{}]: [None] is the nil interface of
    [Binding{}], [Some m] holds the mapping [m]. *)
Record t : Type := mk
  { Credentials : option JSONMap }.
Definition zero : t := mk None.
End Binding.

Module UnbindDetails.
Record t : Type := mk
  { PlanID : string;
    ServiceID : string }.
End UnbindDetails.

Module UpdateDetails.
Record t : Type := mk
  { ServiceID : string;
    PlanID : string;
    Parameters : JSONMap }.
End UpdateDetails.

Module UpdateServiceSpec.
Record t : Type := mk
  { IsAsync : bool;
    OperationData : string }.
Definition zero : t := mk false "".
End UpdateServiceSpec.

Definition LastOperationState : Type := string.

Module LastOperation.
Record t : Type := mk
  { State : LastOperationState;
    Description : string }.
Definition zero : t := mk "" "".
End LastOperation.

End brokerapi.

(** [context.Context]: received by every operation, read by none. *)
Inductive Context : Type := Background.

(** ** [sliceDescription] *)

Definition sliceDescription (original : string) : string :=
  if (254 <? String.length original)%nat
  then substring 0 254 original
  else original.

(** ** The client's request plumbing

    [requestOptions] is what the functions of [ccv2] hand to
    [client.newHTTPRequest].  [bytes.NewReader(json.Marshal(body))] is kept
    as the body value it encodes. *)

Inductive RequestName : Type :=
| PostServiceKeyRequest
| DeleteServiceKeyRequest
| GetServiceKeysRequest
| GetServicePlansRequest.

(** [url.Values], [map[string]string] *)
Definition url_Values : Type := list (string * list string).
Definition Params : Type := list (string * string).

Record serviceKeyRequestBody : Type := mkServiceKeyRequestBody
  { body_ServiceInstanceGUID : string;
    body_Name : string;
    body_Parameters : JSONMap }.

Record requestOptions : Type := mkRequestOptions
  { opt_RequestName : RequestName;
    opt_URIParams : Params;
    opt_Query : url_Values;
    opt_Body : option serviceKeyRequestBody }.

(** A [*cloudcontroller.Request] is identified with the options it was
    built from. *)
Definition Request : Type := requestOptions.

(** ** The control API as seen from the sources

    Everything the sources call without defining is a field of [Client],
    over a type [W] of states of the world behind the connection:
    the client methods whose files are not among the sources, the
    connection ([connection.Make]), the pages [client.paginate] reads,
    the failure of [client.newHTTPRequest], and [ConvertFilterParameters].
    A method returns the three results of its Go signature. *)

Record Client (W : Type) : Type := mkClient
  { api_GetServices :
      W -> (list ccv2.Service.t * ccv2.Warnings * option error) * W;
    api_GetSpaces :
      W -> (list ccv2.Space.t * ccv2.Warnings * option error) * W;
    api_CreateServiceInstance :
      string -> string -> string -> bool -> JSONMap ->
      W -> (ccv2.ServiceInstance.t * ccv2.Warnings * option error) * W;
    api_DeleteServiceInstance :
      string -> bool ->
      W -> (ccv2.ServiceInstance.t * ccv2.Warnings * option error) * W;
    api_GetServiceInstances :
      list ccv2.Filter.t ->
      W -> (list ccv2.ServiceInstance.t * ccv2.Warnings * option error) * W;
    api_GetServiceInstance :
      string ->
      W -> (ccv2.ServiceInstance.t * ccv2.Warnings * option error) * W;
    (** [None] when [newHTTPRequest] builds the request *)
    api_newHTTPRequest_err : requestOptions -> option error;
    (** the service key decoded into [response.Result] when one is
        supplied, [response.Warnings], the returned error *)
    api_Make :
      Request -> W -> (ccv2.ServiceKey.t * ccv2.Warnings * option error) * W;
    (** the items of the pages read, in order, the warnings, and the error
        that stopped the reading, if any *)
    api_pages :
      Request -> W -> (list ccv2.Item * ccv2.Warnings * option error) * W;
    api_ConvertFilterParameters : list ccv2.Filter.t -> url_Values }.

Arguments api_GetServices {W}.
Arguments api_GetSpaces {W}.
Arguments api_CreateServiceInstance {W}.
Arguments api_DeleteServiceInstance {W}.
Arguments api_GetServiceInstances {W}.
Arguments api_GetServiceInstance {W}.
Arguments api_newHTTPRequest_err {W}.
Arguments api_Make {W}.
Arguments api_pages {W}.
Arguments api_ConvertFilterParameters {W}.

(** One entry per call of a client method or of the connection; a
    paginated listing is one entry, however many pages it reads. *)
Inductive Event : Type :=
| EvGetServices
| EvGetSpaces
| EvCreateServiceInstance (name planGUID spaceGUID : string)
    (acceptsIncomplete : bool) (parameters : JSONMap)
| EvDeleteServiceInstance (guid : string) (acceptsIncomplete : bool)
| EvGetServiceInstances (filters : list ccv2.Filter.t)
| EvGetServiceInstance (guid : string)
| EvMake (request : Request)
| EvPaginate (request : Request).

(** The calls that create or delete something on the control API. *)
Definition is_mutating (ev : Event) : bool :=
  match ev with
  | EvCreateServiceInstance _ _ _ _ _ => true
  | EvDeleteServiceInstance _ _ => true
  | EvMake request =>
      match opt_RequestName request with
      | PostServiceKeyRequest | DeleteServiceKeyRequest => true
      | _ => false
      end
  | _ => false
  end.

(** The calls that fetch services or plans for the catalog. *)
Definition is_catalog_fetch (ev : Event) : bool :=
  match ev with
  | EvGetServices => true
  | EvPaginate request =>
      match opt_RequestName request with
      | GetServicePlansRequest => true
      | _ => false
      end
  | _ => false
  end.

(** ** The broker and its state

    [CFBrokerProxy] keeps two cache fields.  [Catalog] is a slice compared
    with [nil]: [None] is the nil slice, [Some l] a non-nil slice (also the
    empty [[]brokerapi.Service{}]).  [InstanceCreators], [InstanceBinders]
    and [Logger] are read by no method; [APIClient] is the pair of the
    [Client] and the state of the world. *)

Record CFBrokerProxy : Type := mkCFBrokerProxy
  { Catalog : option (list brokerapi.Service.t);
    SpaceGUID : string }.

(** [&broker.CFBrokerProxy{APIClient: ccClient, Logger: brokerLogger}] *)
Definition newCFBrokerProxy : CFBrokerProxy := mkCFBrokerProxy None "".

Section Broker.

Variable W : Type.
Variable cc : Client W.

(** The state a method runs in: the broker's fields, the world behind the
    client, and the calls issued so far (oldest first). *)
Record State : Type := mkState
  { broker : CFBrokerProxy;
    world : W;
    calls : list Event }.

Definition M (A : Type) : Type := State -> A * State.

Definition ret {A : Type} (a : A) : M A := fun st => (a, st).

Definition bind {A B : Type} (m : M A) (k : A -> M B) : M B :=
  fun st => let (a, st') := m st in k a st'.

Notation "x <- m ;; k" := (bind m (fun x => k))
  (at level 100, m at next level, right associativity).
Notation "' p <- m ;; k" := (bind m (fun p => k))
  (at level 100, p pattern, m at next level, right associativity).
Notation "m ;;; k" := (bind m (fun _ => k))
  (at level 100, right associativity).

(** Issue one call: the world answers and moves on, the call is logged. *)
Definition call {A : Type} (ev : Event) (f : W -> A * W) : M A :=
  fun st =>
    let (a, w) := f (world st) in
    (a, mkState (broker st) w (calls st ++ [ev])).

Definition getCatalog : M (option (list brokerapi.Service.t)) :=
  fun st => (Catalog (broker st), st).

Definition setCatalog (serviceList : list brokerapi.Service.t) : M unit :=
  fun st =>
    (tt, mkState (mkCFBrokerProxy (Some serviceList) (SpaceGUID (broker st)))
           (world st) (calls st)).

Definition getSpaceGUID : M string :=
  fun st => (SpaceGUID (broker st), st).

Definition setSpaceGUID (guid : string) : M unit :=
  fun st =>
    (tt, mkState (mkCFBrokerProxy (Catalog (broker st)) guid)
           (world st) (calls st)).

(** [for _, x := range l { acc = body(acc, x) }] *)
Fixpoint range {A B : Type} (l : list A) (body : B -> A -> M B) (acc : B)
  : M B :=
  match l with
  | [] => ret acc
  | x :: l' => acc' <- body acc x ;; range l' body acc'
  end.

(** *** The client methods whose files are not among the sources *)

Definition GetServices
  : M (list ccv2.Service.t * ccv2.Warnings * option error) :=
  call EvGetServices (api_GetServices cc).

Definition GetSpaces
  : M (list ccv2.Space.t * ccv2.Warnings * option error) :=
  call EvGetSpaces (api_GetSpaces cc).

Definition CreateServiceInstance (name planGUID spaceGUID : string)
  (acceptsIncomplete : bool) (parameters : JSONMap)
  : M (ccv2.ServiceInstance.t * ccv2.Warnings * option error) :=
  call (EvCreateServiceInstance name planGUID spaceGUID acceptsIncomplete
          parameters)
       (api_CreateServiceInstance cc name planGUID spaceGUID acceptsIncomplete
          parameters).

Definition DeleteServiceInstance (guid : string) (acceptsIncomplete : bool)
  : M (ccv2.ServiceInstance.t * ccv2.Warnings * option error) :=
  call (EvDeleteServiceInstance guid acceptsIncomplete)
       (api_DeleteServiceInstance cc guid acceptsIncomplete).

Definition GetServiceInstances (filters : list ccv2.Filter.t)
  : M (list ccv2.ServiceInstance.t * ccv2.Warnings * option error) :=
  call (EvGetServiceInstances filters) (api_GetServiceInstances cc filters).

Definition GetServiceInstance (guid : string)
  : M (ccv2.ServiceInstance.t * ccv2.Warnings * option error) :=
  call (EvGetServiceInstance guid) (api_GetServiceInstance cc guid).

(** *** The plumbing under the client methods of the sources *)

(** [client.newHTTPRequest(options)]: the request, or the error. *)
Definition newHTTPRequest (options : requestOptions) : Request + error :=
  match api_newHTTPRequest_err cc options with
  | Some err => inr err
  | None => inl options
  end.

(** [client.connection.Make(request, &response)] *)
Definition connection_Make (request : Request)
  : M (ccv2.ServiceKey.t * ccv2.Warnings * option error) :=
  call (EvMake request) (api_Make cc request).

(** The callback of [paginate] runs on the items in order and stops at
    its first error. *)
Fixpoint feed {A : Type} (cb : A -> ccv2.Item -> A * option error)
  (items : list ccv2.Item) (acc : A) : A * option error :=
  match items with
  | [] => (acc, None)
  | item :: rest =>
      match cb acc item with
      | (acc', Some err) => (acc', Some err)
      | (acc', None) => feed cb rest acc'
      end
  end.

(** [client.paginate(request, obj, callback)]: its file is not among the
    sources.  It reads the pages of [request], hands every item to the
    callback, and returns the warnings and the first error, the callback's
    or the connection's.  [acc] is the variable the callback appends to. *)
Definition paginate {A : Type} (request : Request)
  (cb : A -> ccv2.Item -> A * option error) (acc : A)
  : M (A * ccv2.Warnings * option error) :=
  ' (items, warnings, err) <- call (EvPaginate request) (api_pages cc request) ;;
  match feed cb items acc with
  | (acc', Some cberr) => ret (acc', warnings, Some cberr)
  | (acc', None) => ret (acc', warnings, err)
  end.

(** [url.Values{"accepts_incomplete": {"false"}}] *)
Definition accepts_incomplete_false : url_Values :=
  [("accepts_incomplete", ["false"])].

(** *** [ccv2/service_key.go] *)

Definition CreateServiceKey (serviceInstanceGUID keyName : string)
  (acceptsIncomplete : bool) (parameters : JSONMap)
  : M (ccv2.ServiceKey.t * ccv2.Warnings * option error) :=
  let requestBody :=
    mkServiceKeyRequestBody serviceInstanceGUID keyName parameters in
  (* json.Marshal does not fail on a struct of strings and a JSON mapping *)
  match newHTTPRequest
          (mkRequestOptions PostServiceKeyRequest [] accepts_incomplete_false
             (Some requestBody)) with
  | inr err => ret (ccv2.ServiceKey.zero, [], Some err)
  | inl request =>
      ' (serviceKey, warnings, err) <- connection_Make request ;;
      match err with
      | Some e => ret (ccv2.ServiceKey.zero, warnings, Some e)
      | None => ret (serviceKey, warnings, None)
      end
  end.

Definition DeleteServiceKey (serviceKeyGUID : string)
  (acceptsIncomplete : bool)
  : M (ccv2.ServiceKey.t * ccv2.Warnings * option error) :=
  match newHTTPRequest
          (mkRequestOptions DeleteServiceKeyRequest
             [("service_key_guid", serviceKeyGUID)] accepts_incomplete_false
             None) with
  | inr err => ret (ccv2.ServiceKey.zero, [], Some err)
  | inl request =>
      ' (decoded, warnings, err) <- connection_Make request ;;
      (* response.Result is &serviceKey only if acceptsIncomplete; the
         broker passes false, and the answer of the connection is taken
         not to depend on whether it is given a result to decode into *)
      let serviceKey :=
        if acceptsIncomplete then decoded else ccv2.ServiceKey.zero in
      ret (serviceKey, warnings, err)
  end.

Definition GetServiceKeys (filters : list ccv2.Filter.t)
  : M (list ccv2.ServiceKey.t * ccv2.Warnings * option error) :=
  match newHTTPRequest
          (mkRequestOptions GetServiceKeysRequest []
             (api_ConvertFilterParameters cc filters) None) with
  | inr err => ret ([], [], Some err)
  | inl request =>
      paginate request
        (fun fullKeysList item =>
           match item with
           | ccv2.ItemServiceKey binding => (fullKeysList ++ [binding], None)
           | _ =>
               (fullKeysList,
                Some (UnknownObjectInListError
                        (ccv2.ItemServiceKey ccv2.ServiceKey.zero) item))
           end)
        []
  end.

(** *** [ccv2/service_plan.go] *)

Definition ServicePlan_zero : ccv2.ServicePlan.t :=
  ccv2.ServicePlan.mk "" "" "" false "".

Definition GetServicePlans (filters : list ccv2.Filter.t)
  : M (list ccv2.ServicePlan.t * ccv2.Warnings * option error) :=
  match newHTTPRequest
          (mkRequestOptions GetServicePlansRequest []
             (api_ConvertFilterParameters cc filters) None) with
  | inr err => ret ([], [], Some err)
  | inl request =>
      paginate request
        (fun fullServicePlansList item =>
           match item with
           | ccv2.ItemServicePlan plan => (fullServicePlansList ++ [plan], None)
           | _ =>
               (fullServicePlansList,
                Some (UnknownObjectInListError
                        (ccv2.ItemServicePlan ServicePlan_zero) item))
           end)
        []
  end.

(** *** Package [broker] *)

(** [ccv2.Filter{Type: "name", Operator: ":", Values: []string{name}}] *)
Definition nameFilter (name : string) : ccv2.Filter.t :=
  ccv2.Filter.mk "name" ":" [name].

Definition getServicePlans (serviceGUID : string)
  : M (list brokerapi.ServicePlan.t) :=
  ' (servicePlans, _, _) <-
      GetServicePlans [ccv2.Filter.mk "service_guid" ":" [serviceGUID]] ;;
  (* TODO if err *)
  ret (fold_left
         (fun plans p =>
            let plan :=
              brokerapi.ServicePlan.mk
                (ccv2.ServicePlan.GUID p)
                (ccv2.ServicePlan.Name p)
                (sliceDescription (ccv2.ServicePlan.Description p)) in
            plans ++ [plan])
         servicePlans []).

Definition Services (context : Context)
  : M (list brokerapi.Service.t * option error) :=
  catalog <- getCatalog ;;
  match catalog with
  | Some cached => ret (cached, None)
  | None =>
      ' (services, _, err) <- GetServices ;;
      match err with
      | Some e => ret ([], Some e)
      | None =>
          serviceList <-
            range services
              (fun serviceList s =>
                 planList <- getServicePlans (ccv2.Service.GUID s) ;;
                 let service :=
                   brokerapi.Service.mk
                     (ccv2.Service.GUID s)
                     (ccv2.Service.Label s)
                     (sliceDescription (ccv2.Service.Description s))
                     true
                     false
                     planList in
                 ret (serviceList ++ [service]))
              [] ;;
          setCatalog serviceList ;;;
          ret (serviceList, None)
      end
  end.

Definition Provision (context : Context) (instanceID : string)
  (serviceDetails : brokerapi.ProvisionDetails.t) (asyncAllowed : bool)
  : M (brokerapi.ProvisionedServiceSpec.t * option error) :=
  let create : M (brokerapi.ProvisionedServiceSpec.t * option error) :=
    spaceGUID <- getSpaceGUID ;;
    ' (serviceInstance, _, err) <-
        CreateServiceInstance instanceID
          (brokerapi.ProvisionDetails.PlanID serviceDetails) spaceGUID
          asyncAllowed [] ;;
    match err with
    | Some e => ret (brokerapi.ProvisionedServiceSpec.zero, Some e)
    | None =>
        ret (brokerapi.ProvisionedServiceSpec.mk
               (String.eqb
                  (ccv2.LastOperation.State
                     (ccv2.ServiceInstance.LastOperation serviceInstance))
                  constant.LastOperationInProgress)
               (ccv2.ServiceInstance.DashboardURL serviceInstance)
               (ccv2.ServiceInstance.GUID serviceInstance),
             None)
    end in
  cachedSpace <- getSpaceGUID ;;
  if String.eqb cachedSpace ""
  then
    ' (availableSpace, _, err) <- GetSpaces ;;
    match err with
    | Some e => ret (brokerapi.ProvisionedServiceSpec.zero, Some e)
    | None =>
        if (List.length availableSpace <? 1)%nat
        then ret (brokerapi.ProvisionedServiceSpec.zero,
                  Some (errorString "Available spaces not found"))
        else
          setSpaceGUID
            (ccv2.Space.GUID (nth 0 availableSpace (ccv2.Space.mk "" ""))) ;;;
          create
    end
  else create.

Definition findFirstServiceInstanceWithName (serviceInstanceName : string)
  : M (ccv2.ServiceInstance.t * option error) :=
  ' (serviceInstances, _, err) <-
      GetServiceInstances [nameFilter serviceInstanceName] ;;
  match err with
  | Some e => ret (ccv2.ServiceInstance.zero, Some e)
  | None =>
      if (List.length serviceInstances <? 1)%nat
      then ret (ccv2.ServiceInstance.zero,
                Some (errorString
                        ("Service instance with name " ++ serviceInstanceName
                           ++ " not found")%string))
      else ret (nth 0 serviceInstances ccv2.ServiceInstance.zero, None)
  end.

Definition Deprovision (context : Context) (instanceID : string)
  (details : brokerapi.DeprovisionDetails.t) (asyncAllowed : bool)
  : M (brokerapi.DeprovisionServiceSpec.t * option error) :=
  ' (firstInstance, err) <- findFirstServiceInstanceWithName instanceID ;;
  match err with
  | Some e => ret (brokerapi.DeprovisionServiceSpec.zero, Some e)
  | None =>
      ' (instanceToDelete, _, err) <-
          DeleteServiceInstance (ccv2.ServiceInstance.GUID firstInstance)
            true ;;
      match err with
      | Some e => ret (brokerapi.DeprovisionServiceSpec.zero, Some e)
      | None =>
          ret (brokerapi.DeprovisionServiceSpec.mk
                 (String.eqb
                    (ccv2.LastOperation.State
                       (ccv2.ServiceInstance.LastOperation instanceToDelete))
                    constant.LastOperationInProgress)
                 (ccv2.ServiceInstance.GUID instanceToDelete),
               None)
      end
  end.

Definition Bind (context : Context) (instanceID bindingID : string)
  (details : brokerapi.BindDetails.t)
  : M (brokerapi.Binding.t * option error) :=
  ' (firstInstance, err) <- findFirstServiceInstanceWithName instanceID ;;
  match err with
  | Some e => ret (brokerapi.Binding.zero, Some e)
  | None =>
      ' (serviceKey, _, err) <-
          CreateServiceKey (ccv2.ServiceInstance.GUID firstInstance)
            bindingID true [] ;;
      match err with
      | Some e => ret (brokerapi.Binding.zero, Some e)
      | None =>
          ret (brokerapi.Binding.mk
                 (Some (ccv2.ServiceKey.Credentials serviceKey)),
               None)
      end
  end.

Definition Unbind (context : Context) (instanceID bindingID : string)
  (details : brokerapi.UnbindDetails.t) : M (option error) :=
  ' (serviceKeys, _, err) <- GetServiceKeys [nameFilter bindingID] ;;
  match err with
  | Some e => ret (Some e)
  | None =>
      if (List.length serviceKeys <? 1)%nat
      then ret (Some (errorString
                        ("Service key '" ++ bindingID ++ "' not found")%string))
      else
        ' (_, _, err) <-
            DeleteServiceKey
              (ccv2.ServiceKey.GUID (nth 0 serviceKeys ccv2.ServiceKey.zero))
              false ;;
        match err with
        | Some e => ret (Some e)
        | None => ret None
        end
  end.

Definition LastOperation (context : Context)
  (instanceID operationData : string)
  : M (brokerapi.LastOperation.t * option error) :=
  ' (serviceInstance, _, err) <- GetServiceInstance operationData ;;
  match err with
  | Some e => ret (brokerapi.LastOperation.zero, Some e)
  | None =>
      ret (brokerapi.LastOperation.mk
             (ccv2.LastOperation.State
                (ccv2.ServiceInstance.LastOperation serviceInstance))
             (ccv2.LastOperation.Description
                (ccv2.ServiceInstance.LastOperation serviceInstance)),
           None)
  end.

Definition Update (context : Context) (instanceID : string)
  (serviceDetails : brokerapi.UpdateDetails.t) (asyncAllowed : bool)
  : M (brokerapi.UpdateServiceSpec.t * option error) :=
  ret (brokerapi.UpdateServiceSpec.zero, None).

End Broker.

Arguments mkState {W}.
Arguments broker {W}.
Arguments world {W}.
Arguments calls {W}.
Arguments ret {W A}.
Arguments bind {W A B}.
Arguments call {W A}.
Arguments range {W A B}.
Arguments newHTTPRequest {W}.
Arguments connection_Make {W}.
Arguments paginate {W} cc {A}.
Arguments CreateServiceKey {W}.
Arguments DeleteServiceKey {W}.
Arguments GetServiceKeys {W}.
Arguments GetServicePlans {W}.
Arguments GetServices {W}.
Arguments GetSpaces {W}.
Arguments CreateServiceInstance {W}.
Arguments DeleteServiceInstance {W}.
Arguments GetServiceInstances {W}.
Arguments GetServiceInstance {W}.
Arguments getServicePlans {W}.
Arguments findFirstServiceInstanceWithName {W}.
Arguments Services {W}.
Arguments Provision {W}.
Arguments Deprovision {W}.
Arguments Bind {W}.
Arguments Unbind {W}.
Arguments LastOperation {W}.
Arguments Update {W}.

(** ** The protocol server

    [brokerapi.New(serviceBroker, ...)] dispatches each request of the
    broker protocol to one operation of the broker. *)

Inductive Operation : Type :=
| OpServices (context : Context)
| OpProvision (context : Context) (instanceID : string)
    (serviceDetails : brokerapi.ProvisionDetails.t) (asyncAllowed : bool)
| OpDeprovision (context : Context) (instanceID : string)
    (details : brokerapi.DeprovisionDetails.t) (asyncAllowed : bool)
| OpBind (context : Context) (instanceID bindingID : string)
    (details : brokerapi.BindDetails.t)
| OpUnbind (context : Context) (instanceID bindingID : string)
    (details : brokerapi.UnbindDetails.t)
| OpLastOperation (context : Context) (instanceID operationData : string)
| OpUpdate (context : Context) (instanceID : string)
    (serviceDetails : brokerapi.UpdateDetails.t) (asyncAllowed : bool).

(** One request: the error the operation returns and the state it leaves. *)
Definition serve {W : Type} (cc : Client W) (op : Operation) (st : State W)
  : option error * State W :=
  match op with
  | OpServices c => let (r, st') := Services cc c st in (snd r, st')
  | OpProvision c i d a => let (r, st') := Provision cc c i d a st in (snd r, st')
  | OpDeprovision c i d a =>
      let (r, st') := Deprovision cc c i d a st in (snd r, st')
  | OpBind c i b d => let (r, st') := Bind cc c i b d st in (snd r, st')
  | OpUnbind c i b d => Unbind cc c i b d st
  | OpLastOperation c i o =>
      let (r, st') := LastOperation cc c i o st in (snd r, st')
  | OpUpdate c i d a => let (r, st') := Update c i d a st in (snd r, st')
  end.

(** A sequence of requests, served one after the other. *)
Fixpoint serveAll {W : Type} (cc : Client W) (ops : list Operation)
  (st : State W) : State W :=
  match ops with
  | [] => st
  | op :: ops' => serveAll cc ops' (snd (serve cc op st))
  end.

(** The calls issued between two states of one run. *)
Definition issued {W : Type} (st st' : State W) : list Event :=
  skipn (List.length (calls st)) (calls st').

(** ** Properties of catalogs *)

Definition plan_within_limit (p : brokerapi.ServicePlan.t) : Prop :=
  String.length (brokerapi.ServicePlan.Description p) <= 254.

Definition service_within_limit (s : brokerapi.Service.t) : Prop :=
  String.length (brokerapi.Service.Description s) <= 254 /\
  Forall plan_within_limit (brokerapi.Service.Plans s).

(** The plan entry [getServicePlans] builds from a plan. *)
Definition planEntry (p : ccv2.ServicePlan.t) : brokerapi.ServicePlan.t :=
  brokerapi.ServicePlan.mk (ccv2.ServicePlan.GUID p) (ccv2.ServicePlan.Name p)
    (sliceDescription (ccv2.ServicePlan.Description p)).

(** The calls a step adds to the log, all of them passing [ok]. *)
Definition adds {W : Type} (ok : Event -> bool) (st st' : State W) : Prop :=
  exists evs, calls st' = calls st ++ evs /\ forallb ok evs = true.

Definition not_catalog_fetch (ev : Event) : bool := negb (is_catalog_fetch ev).

(** The entry [Services] builds from a service and its plans. *)
Definition catalogEntry (s : ccv2.Service.t)
  (planList : list brokerapi.ServicePlan.t) : brokerapi.Service.t :=
  brokerapi.Service.mk (ccv2.Service.GUID s) (ccv2.Service.Label s)
    (sliceDescription (ccv2.Service.Description s)) true false planList.

(** One turn of the loop of [Services]. *)
Definition assemble {W : Type} (cc : Client W)
  (serviceList : list brokerapi.Service.t) (s : ccv2.Service.t)
  : State W -> list brokerapi.Service.t * State W :=
  bind (getServicePlans cc (ccv2.Service.GUID s))
    (fun planList => ret (serviceList ++ [catalogEntry s planList])).

(** The cached catalog, if any, respects the limit. *)
Definition catalog_inv (b : CFBrokerProxy) : Prop :=
  match Catalog b with
  | Some cached => Forall service_within_limit cached
  | None => True
  end.

(** The query of the requests made through the connection. *)
Definition made_with_query (query : url_Values) (ev : Event) : Prop :=
  match ev with
  | EvMake request => opt_Query request = query
  | _ => True
  end.

(** The broker's fields are left as they were when a request fails. *)
Definition caches_unchanged_on_error {W : Type} (cc : Client W)
  (op : Operation) (st : State W) : Prop :=
  fst (serve cc op st) <> None ->
  broker (snd (serve cc op st)) = broker st.

(** ** Stub clients, for running the broker on concrete answers *)

Module Stub.

Record Answers : Type := mkAnswers
  { services : list ccv2.Service.t * option error;
    planItems : list ccv2.Item * option error;
    keyItems : list ccv2.Item * option error;
    spaces : list ccv2.Space.t * option error;
    instances : list ccv2.ServiceInstance.t * option error;
    created : ccv2.ServiceInstance.t * option error;
    deleted : ccv2.ServiceInstance.t * option error;
    made : ccv2.ServiceKey.t * option error }.

(** The world counts the calls it has answered. *)
Definition answer {A : Type} (a : A * option error) (w : nat)
  : (A * ccv2.Warnings * option error) * nat :=
  ((fst a, [], snd a), S w).

Definition filterQuery (filters : list ccv2.Filter.t) : url_Values :=
  [("q", map (fun f =>
                (ccv2.Filter.Type_ f ++ ccv2.Filter.Operator f
                   ++ String.concat "," (ccv2.Filter.Values f))%string)
             filters)].

Definition client (a : Answers) : Client nat :=
  mkClient nat
    (answer (services a))
    (answer (spaces a))
    (fun _ _ _ _ _ => answer (created a))
    (fun _ _ => answer (deleted a))
    (fun _ => answer (instances a))
    (fun _ => answer (created a))
    (fun _ => None)
    (fun _ => answer (made a))
    (fun request =>
       match opt_RequestName request with
       | GetServicePlansRequest => answer (planItems a)
       | _ => answer (keyItems a)
       end)
    filterQuery.

Definition noInstance : ccv2.ServiceInstance.t := ccv2.ServiceInstance.zero.

Definition quiet : Answers :=
  mkAnswers ([], None) ([], None) ([], None) ([], None) ([], None)
    (noInstance, None) (noInstance, None) (ccv2.ServiceKey.zero, None).

(** The state [main] starts the broker in. *)
Definition start : State nat := mkState newCFBrokerProxy 0 [].

(** Answers for the runs below. *)

Fixpoint replicate (n : nat) (c : ascii) : string :=
  match n with
  | O => EmptyString
  | S n' => String c (replicate n' c)
  end.

Definition longDescription : string := replicate 300 "x"%char.

Definition s1 : ccv2.Service.t :=
  ccv2.Service.mk "s1" "service-one" longDescription.

Definition p1 : ccv2.ServicePlan.t :=
  ccv2.ServicePlan.mk "p1" "plan-one" "s1" true longDescription.

Definition sp1 : ccv2.Space.t := ccv2.Space.mk "space-1" "dev".

Definition inProgress : ccv2.ServiceInstance.t :=
  ccv2.ServiceInstance.mk "instance-guid" "instance-1" "https://dashboard"
    (ccv2.LastOperation.mk "in progress" "creating").

Definition key1 : ccv2.ServiceKey.t :=
  ccv2.ServiceKey.mk "key-guid-1" "binding-1" "instance-guid"
    [("password", JString "secret")].

Definition key2 : ccv2.ServiceKey.t :=
  ccv2.ServiceKey.mk "key-guid-2" "binding-1" "other-instance-guid" [].

Definition unavailable : error := upstreamError 503 "service unavailable".

(** One service with one plan, both described in 300 bytes. *)
Definition oneService : Answers :=
  mkAnswers ([s1], None) ([ccv2.ItemServicePlan p1], None) ([], None)
    ([], None) ([], None) (noInstance, None) (noInstance, None)
    (ccv2.ServiceKey.zero, None).

(** One service whose plans cannot be fetched. *)
Definition plansFail : Answers :=
  mkAnswers ([s1], None) ([], Some unavailable) ([], None)
    ([], None) ([], None) (noInstance, None) (noInstance, None)
    (ccv2.ServiceKey.zero, None).

(** The services cannot be fetched. *)
Definition servicesFail : Answers :=
  mkAnswers ([], Some unavailable) ([], None) ([], None)
    ([], None) ([], None) (noInstance, None) (noInstance, None)
    (ccv2.ServiceKey.zero, None).

(** One space; instances are created and stay in progress. *)
Definition createWorks : Answers :=
  mkAnswers ([], None) ([], None) ([], None)
    ([sp1], None) ([], None) (inProgress, None) (noInstance, None)
    (ccv2.ServiceKey.zero, None).

(** One space; creating an instance fails. *)
Definition createFails : Answers :=
  mkAnswers ([], None) ([], None) ([], None)
    ([sp1], None) ([], None) (noInstance, Some unavailable) (noInstance, None)
    (ccv2.ServiceKey.zero, None).

(** One instance, two keys of the same name. *)
Definition oneInstance : Answers :=
  mkAnswers ([], None) ([], None)
    ([ccv2.ItemServiceKey key1; ccv2.ItemServiceKey key2], None)
    ([sp1], None) ([inProgress], None) (inProgress, None) (inProgress, None)
    (key1, None).

End Stub.

(** ** Further vocabulary for the calls of a request *)

(** The request [GetServicePlans] builds for the plans of one service. *)
Definition plansRequest {W : Type} (cc : Client W) (serviceGUID : string)
  : requestOptions :=
  mkRequestOptions GetServicePlansRequest []
    (api_ConvertFilterParameters cc
       [ccv2.Filter.mk "service_guid" ":" [serviceGUID]])
    None.

(** The request [GetServiceKeys] builds for the keys of one name. *)
Definition keysRequest {W : Type} (cc : Client W) (name : string)
  : requestOptions :=
  mkRequestOptions GetServiceKeysRequest []
    (api_ConvertFilterParameters cc [nameFilter name]) None.

(** The request [CreateServiceKey] builds. *)
Definition postKeyRequest (serviceInstanceGUID keyName : string)
  (parameters : JSONMap) : requestOptions :=
  mkRequestOptions PostServiceKeyRequest []
    [("accepts_incomplete", ["false"])]
    (Some (mkServiceKeyRequestBody serviceInstanceGUID keyName parameters)).

(** The request [DeleteServiceKey] builds. *)
Definition deleteKeyRequest (serviceKeyGUID : string) : requestOptions :=
  mkRequestOptions DeleteServiceKeyRequest
    [("service_key_guid", serviceKeyGUID)]
    [("accepts_incomplete", ["false"])] None.

(** The call the catalog issues for the plans of one service, if the
    request can be built. *)
Definition planCalls {W : Type} (cc : Client W) (s : ccv2.Service.t)
  : list Event :=
  match api_newHTTPRequest_err cc (plansRequest cc (ccv2.Service.GUID s)) with
  | Some _ => []
  | None => [EvPaginate (plansRequest cc (ccv2.Service.GUID s))]
  end.

Definition not_mutating (ev : Event) : bool := negb (is_mutating ev).

Definition is_space_lookup (ev : Event) : bool :=
  match ev with
  | EvGetSpaces => true
  | _ => false
  end.

Definition not_space_lookup (ev : Event) : bool := negb (is_space_lookup ev).

(** ** Characters and bytes

    A description is UTF-8 text.  A character takes one to four bytes; the
    bytes after its first are continuation bytes, [10xxxxxx]. *)

Definition is_continuation (c : ascii) : bool :=
  match c with
  | Ascii _ _ _ _ _ _ b6 b7 => b7 && negb b6
  end.

(** The number of characters of a UTF-8 string: its bytes that do not
    continue a character. *)
Fixpoint characters (s : string) : nat :=
  match s with
  | EmptyString => 0
  | String c s' => (if is_continuation c then 0 else 1) + characters s'
  end.

(** The limit of [sliceDescription] read in characters: at most 254
    characters come out, a description of more than 254 characters is cut
    to its first 254, any other is returned as it is. *)
Definition sliced_in_characters (original : string) : Prop :=
  characters (sliceDescription original) <= 254 /\
  (254 < characters original ->
   characters (sliceDescription original) = 254 /\
   exists rest, original = (sliceDescription original ++ rest)%string) /\
  (characters original <= 254 -> sliceDescription original = original).

(** The catalog of [services] as the spec words it: one entry per service,
    with the plans the control API lists for that service, every
    description sliced.  The listings are asked in the order of the
    services, each in the state the one before left. *)
Fixpoint slicedCatalog {W : Type} (cc : Client W)
  (services : list ccv2.Service.t) (st : State W)
  : list brokerapi.Service.t :=
  match services with
  | [] => []
  | s :: rest =>
      let listing :=
        GetServicePlans cc
          [ccv2.Filter.mk "service_guid" ":" [ccv2.Service.GUID s]] st in
      brokerapi.Service.mk (ccv2.Service.GUID s) (ccv2.Service.Label s)
        (sliceDescription (ccv2.Service.Description s)) true false
        (map (fun p =>
                brokerapi.ServicePlan.mk (ccv2.ServicePlan.GUID p)
                  (ccv2.ServicePlan.Name p)
                  (sliceDescription (ccv2.ServicePlan.Description p)))
           (fst (fst (fst listing))))
      :: slicedCatalog cc rest (snd listing)
  end.

(** Further answers and states to run the broker on. *)

Module Scenario.

(** [n] times the letter e with an acute accent, U+00E9: two bytes each,
    195 and 169. *)
Fixpoint accents (n : nat) : string :=
  match n with
  | O => EmptyString
  | S n' =>
      String (ascii_of_nat 195) (String (ascii_of_nat 169) (accents n'))
  end.

(** 253 letters and one accented letter: 254 characters in 255 bytes. *)
Definition accentLast : string :=
  (Stub.replicate 253 "a"%char ++ accents 1)%string.

Definition p2 : ccv2.ServicePlan.t :=
  ccv2.ServicePlan.mk "p2" "plan-two" "s1" false "small".

Definition s2 : ccv2.Service.t :=
  ccv2.Service.mk "s2" "service-two" "second".

Definition deleting : ccv2.ServiceInstance.t :=
  ccv2.ServiceInstance.mk "instance-guid" "instance-1" ""
    (ccv2.LastOperation.mk "in progress" "deleting").

Definition otherInstance : ccv2.ServiceInstance.t :=
  ccv2.ServiceInstance.mk "other-guid" "instance-1" ""
    (ccv2.LastOperation.mk "succeeded" "").

(** Two services; each plan listing reads two plans and then fails. *)
Definition partialPlans : Stub.Answers :=
  Stub.mkAnswers ([Stub.s1; s2], None)
    ([ccv2.ItemServicePlan Stub.p1; ccv2.ItemServicePlan p2],
     Some Stub.unavailable)
    ([], None) ([], None) ([], None) (Stub.noInstance, None)
    (Stub.noInstance, None) (ccv2.ServiceKey.zero, None).

(** The key listing fails after reading one key. *)
Definition keysFail : Stub.Answers :=
  Stub.mkAnswers ([], None) ([], None)
    ([ccv2.ItemServiceKey Stub.key1], Some Stub.unavailable)
    ([], None) ([], None) (Stub.noInstance, None) (Stub.noInstance, None)
    (ccv2.ServiceKey.zero, None).

(** The instance lookup fails, with an instance in hand. *)
Definition lookupFails : Stub.Answers :=
  Stub.mkAnswers ([], None) ([], None) ([], None) ([], None)
    ([Stub.inProgress], Some Stub.unavailable) (Stub.noInstance, None)
    (Stub.noInstance, None) (ccv2.ServiceKey.zero, None).

(** Two instances of one name; deleting answers with a record in
    progress; creating a key fails. *)
Definition twoInstances : Stub.Answers :=
  Stub.mkAnswers ([], None) ([], None) ([], None) ([], None)
    ([Stub.inProgress; otherInstance], None) (Stub.inProgress, None)
    (deleting, None) (Stub.key1, Some Stub.unavailable).

(** The space lookup fails, with a space in hand. *)
Definition spacesFail : Stub.Answers :=
  Stub.mkAnswers ([], None) ([], None) ([], None)
    ([Stub.sp1], Some Stub.unavailable) ([], None) (Stub.inProgress, None)
    (Stub.noInstance, None) (ccv2.ServiceKey.zero, None).

(** A client that cannot build any request. *)
Definition noRoute : Client nat :=
  mkClient nat
    (api_GetServices (Stub.client Stub.oneInstance))
    (api_GetSpaces (Stub.client Stub.oneInstance))
    (api_CreateServiceInstance (Stub.client Stub.oneInstance))
    (api_DeleteServiceInstance (Stub.client Stub.oneInstance))
    (api_GetServiceInstances (Stub.client Stub.oneInstance))
    (api_GetServiceInstance (Stub.client Stub.oneInstance))
    (fun _ => Some (errorString "no route"))
    (api_Make (Stub.client Stub.oneInstance))
    (api_pages (Stub.client Stub.oneInstance))
    Stub.filterQuery.

(** A broker that has resolved its space already. *)
Definition spaceCached : State nat :=
  mkState (mkCFBrokerProxy None "space-0") 0 [].

End Scenario.

(** * Properties *)

(** ** Strings: the first [n] bytes *)

Lemma length_substring_0 (n : nat) (s : string) :
  String.length (substring 0 n s) = Nat.min n (String.length s).
Proof.
  revert n; induction s as [|c s IH]; intros [|n]; simpl; auto.
Qed.

Lemma substring_0_prefix (n : nat) (s : string) :
  exists rest, s = (substring 0 n s ++ rest)%string.
Proof.
  revert n; induction s as [|c s IH]; intros [|n]; simpl.
  - exists ""; reflexivity.
  - exists ""; reflexivity.
  - exists (String c s); reflexivity.
  - destruct (IH n) as [rest E]. exists rest. congruence.
Qed.

Lemma sliceDescription_length (original : string) :
  String.length (sliceDescription original) <= 254.
Proof.
  unfold sliceDescription.
  destruct (Nat.ltb_spec 254 (String.length original)) as [H|H].
  - rewrite length_substring_0. apply Nat.le_min_l.
  - exact H.
Qed.

Lemma sliceDescription_long (original : string) :
  254 < String.length original ->
  String.length (sliceDescription original) = 254 /\
  exists rest, original = (sliceDescription original ++ rest)%string.
Proof.
  intros H. unfold sliceDescription.
  destruct (Nat.ltb_spec 254 (String.length original)) as [_|H']; [|lia].
  split.
  - rewrite length_substring_0. apply Nat.min_l. lia.
  - apply substring_0_prefix.
Qed.

Lemma sliceDescription_short (original : string) :
  String.length original <= 254 -> sliceDescription original = original.
Proof.
  intros H. unfold sliceDescription.
  destruct (Nat.ltb_spec 254 (String.length original)) as [H'|_]; [lia|].
  reflexivity.
Qed.

(** ** The state monad *)

Lemma fold_left_snoc {A B : Type} (f : A -> B) (l : list A) (init : list B) :
  fold_left (fun acc x => acc ++ [f x]) l init = init ++ map f l.
Proof.
  revert init; induction l as [|x l IH]; intros init; simpl.
  - now rewrite app_nil_r.
  - rewrite IH, <- app_assoc. reflexivity.
Qed.

Lemma call_eq {W A : Type} (ev : Event) (f : W -> A * W) (st : State W) :
  call ev f st =
  (fst (f (world st)),
   mkState (broker st) (snd (f (world st))) (calls st ++ [ev])).
Proof. unfold call. destruct (f (world st)); reflexivity. Qed.

Lemma bind_eq {W A B : Type} (m : State W -> A * State W)
  (k : A -> State W -> B * State W) (st : State W) :
  bind m k st = k (fst (m st)) (snd (m st)).
Proof. unfold bind. destruct (m st); reflexivity. Qed.

(** An invariant of the loop: [P] on the accumulator, [I] on the state. *)
Lemma range_invariant {W A B : Type} (P : B -> Prop) (I : State W -> Prop)
  (body : B -> A -> State W -> B * State W) (l : list A) :
  (forall acc x st, P acc -> I st ->
     P (fst (body acc x st)) /\ I (snd (body acc x st))) ->
  forall acc st, P acc -> I st ->
    P (fst (range l body acc st)) /\ I (snd (range l body acc st)).
Proof.
  intros Hbody. induction l as [|x l IH]; intros acc st HP HI; simpl.
  - split; assumption.
  - rewrite bind_eq. destruct (Hbody acc x st HP HI) as [HP' HI'].
    apply IH; assumption.
Qed.

(** ** Running a method by cases on the answers of the control API *)

Ltac run1 :=
  rewrite ?bind_eq, ?call_eq; cbn [fst snd broker world calls ret].

Ltac ask :=
  match goal with
  | |- context [api_GetServices ?cc ?w] =>
      destruct (api_GetServices cc w) as [[[? ?] [?|]] ?] eqn:?
  | |- context [api_GetSpaces ?cc ?w] =>
      destruct (api_GetSpaces cc w) as [[[? ?] [?|]] ?] eqn:?
  | |- context [api_CreateServiceInstance ?cc ?a ?b ?c ?d ?e ?w] =>
      destruct (api_CreateServiceInstance cc a b c d e w)
        as [[[? ?] [?|]] ?] eqn:?
  | |- context [api_DeleteServiceInstance ?cc ?a ?b ?w] =>
      destruct (api_DeleteServiceInstance cc a b w) as [[[? ?] [?|]] ?] eqn:?
  | |- context [api_GetServiceInstances ?cc ?a ?w] =>
      destruct (api_GetServiceInstances cc a w) as [[[? ?] [?|]] ?] eqn:?
  | |- context [api_GetServiceInstance ?cc ?a ?w] =>
      destruct (api_GetServiceInstance cc a w) as [[[? ?] [?|]] ?] eqn:?
  | |- context [api_Make ?cc ?a ?w] =>
      destruct (api_Make cc a w) as [[[? ?] [?|]] ?] eqn:?
  | |- context [api_pages ?cc ?a ?w] =>
      destruct (api_pages cc a w) as [[[? ?] [?|]] ?] eqn:?
  | |- context [api_newHTTPRequest_err ?cc ?a] =>
      destruct (api_newHTTPRequest_err cc a) as [?|] eqn:?
  | |- context [feed ?cb ?l ?a] =>
      destruct (feed cb l a) as [? [?|]] eqn:?
  | |- context [(List.length ?l <? 1)%nat] =>
      destruct l as [|? ?]; cbn [List.length Nat.ltb Nat.leb nth]
  | |- context [String.eqb ?a ""] =>
      destruct (String.eqb_spec a "")
  end.

Ltac run := repeat (run1; try ask).

Ltac unfold_client :=
  unfold GetServiceKeys, GetServicePlans, CreateServiceKey, DeleteServiceKey,
    paginate, connection_Make, newHTTPRequest, GetServices, GetSpaces,
    CreateServiceInstance, DeleteServiceInstance, GetServiceInstances,
    GetServiceInstance.

Lemma adds_refl {W : Type} (ok : Event -> bool) (st : State W) :
  adds ok st st.
Proof. exists []. now rewrite app_nil_r. Qed.

Lemma adds_trans {W : Type} (ok : Event -> bool) (st1 st2 st3 : State W) :
  adds ok st1 st2 -> adds ok st2 st3 -> adds ok st1 st3.
Proof.
  intros [e1 [E1 F1]] [e2 [E2 F2]]. exists (e1 ++ e2). split.
  - now rewrite E2, E1, app_assoc.
  - rewrite forallb_app, F1, F2. reflexivity.
Qed.

Lemma filter_none {A : Type} (bad : A -> bool) (l : list A) :
  forallb (fun x => negb (bad x)) l = true -> filter bad l = [].
Proof.
  induction l as [|x l IH]; simpl; [reflexivity|].
  intros F. apply andb_prop in F. destruct F as [F1 F2].
  destruct (bad x); [discriminate|]. auto.
Qed.

Lemma adds_filter {W : Type} (bad : Event -> bool) (st st' : State W) :
  adds (fun ev => negb (bad ev)) st st' ->
  filter bad (calls st') = filter bad (calls st).
Proof.
  intros [evs [E F]].
  rewrite E, filter_app, (filter_none bad evs F). apply app_nil_r.
Qed.

Ltac show_adds :=
  unfold adds; cbn [calls]; rewrite <- ?app_assoc;
  first [ eexists; split; [reflexivity | reflexivity]
        | exists []; split; [now rewrite app_nil_r | reflexivity] ].

(** ** What each method leaves of the broker's fields *)

Lemma getServicePlans_eq {W : Type} (cc : Client W) (guid : string)
  (st : State W) :
  getServicePlans cc guid st =
  (map planEntry
     (fst (fst (fst (GetServicePlans cc
                       [ccv2.Filter.mk "service_guid" ":" [guid]] st)))),
   snd (GetServicePlans cc [ccv2.Filter.mk "service_guid" ":" [guid]] st)).
Proof.
  unfold getServicePlans. rewrite bind_eq.
  destruct (GetServicePlans cc _ st) as [[[plans wn] e] st']. simpl.
  unfold ret. rewrite (fold_left_snoc planEntry). reflexivity.
Qed.

Lemma GetServicePlans_broker {W : Type} (cc : Client W)
  (filters : list ccv2.Filter.t) (st : State W) :
  broker (snd (GetServicePlans cc filters st)) = broker st.
Proof. unfold_client. run; reflexivity. Qed.

Lemma getServicePlans_broker {W : Type} (cc : Client W) (guid : string)
  (st : State W) :
  broker (snd (getServicePlans cc guid st)) = broker st.
Proof. rewrite getServicePlans_eq. apply GetServicePlans_broker. Qed.

Lemma getServicePlans_within_limit {W : Type} (cc : Client W) (guid : string)
  (st : State W) :
  Forall plan_within_limit (fst (getServicePlans cc guid st)).
Proof.
  rewrite getServicePlans_eq. cbn [fst]. apply Forall_forall.
  intros p Hp. apply in_map_iff in Hp. destruct Hp as [q [<- _]].
  apply sliceDescription_length.
Qed.

Lemma Deprovision_broker {W : Type} (cc : Client W) c i d a (st : State W) :
  broker (snd (Deprovision cc c i d a st)) = broker st.
Proof.
  unfold Deprovision, findFirstServiceInstanceWithName. unfold_client.
  run; reflexivity.
Qed.

Lemma Bind_broker {W : Type} (cc : Client W) c i b d (st : State W) :
  broker (snd (Bind cc c i b d st)) = broker st.
Proof.
  unfold Bind, findFirstServiceInstanceWithName. unfold_client.
  run; reflexivity.
Qed.

Lemma Unbind_broker {W : Type} (cc : Client W) c i b d (st : State W) :
  broker (snd (Unbind cc c i b d st)) = broker st.
Proof. unfold Unbind. unfold_client. run; reflexivity. Qed.

Lemma LastOperation_broker {W : Type} (cc : Client W) c i o (st : State W) :
  broker (snd (LastOperation cc c i o st)) = broker st.
Proof. unfold LastOperation. unfold_client. run; reflexivity. Qed.

Lemma Provision_Catalog {W : Type} (cc : Client W) c i d a (st : State W) :
  Catalog (broker (snd (Provision cc c i d a st))) = Catalog (broker st).
Proof.
  unfold Provision, getSpaceGUID, setSpaceGUID. unfold_client.
  run; reflexivity.
Qed.

(** ** Which calls each method issues *)

Lemma Provision_no_catalog_fetch {W : Type} (cc : Client W) c i d a
  (st : State W) :
  adds not_catalog_fetch st (snd (Provision cc c i d a st)).
Proof.
  unfold Provision, getSpaceGUID, setSpaceGUID. unfold_client.
  run; show_adds.
Qed.

Lemma Deprovision_no_catalog_fetch {W : Type} (cc : Client W) c i d a
  (st : State W) :
  adds not_catalog_fetch st (snd (Deprovision cc c i d a st)).
Proof.
  unfold Deprovision, findFirstServiceInstanceWithName. unfold_client.
  run; show_adds.
Qed.

Lemma Bind_no_catalog_fetch {W : Type} (cc : Client W) c i b d
  (st : State W) :
  adds not_catalog_fetch st (snd (Bind cc c i b d st)).
Proof.
  unfold Bind, findFirstServiceInstanceWithName. unfold_client.
  run; show_adds.
Qed.

Lemma Unbind_no_catalog_fetch {W : Type} (cc : Client W) c i b d
  (st : State W) :
  adds not_catalog_fetch st (snd (Unbind cc c i b d st)).
Proof. unfold Unbind. unfold_client. run; show_adds. Qed.

Lemma LastOperation_no_catalog_fetch {W : Type} (cc : Client W) c i o
  (st : State W) :
  adds not_catalog_fetch st (snd (LastOperation cc c i o st)).
Proof. unfold LastOperation. unfold_client. run; show_adds. Qed.

(** ** [Services], by cases *)

Lemma Services_cached {W : Type} (cc : Client W) c (st : State W) cached :
  Catalog (broker st) = Some cached ->
  Services cc c st = ((cached, None), st).
Proof.
  intros H. unfold Services, getCatalog. rewrite bind_eq. cbn [fst snd].
  rewrite H. reflexivity.
Qed.

Lemma Services_fetch_failed {W : Type} (cc : Client W) c (st : State W)
  services wn e w :
  Catalog (broker st) = None ->
  api_GetServices cc (world st) = ((services, wn, Some e), w) ->
  Services cc c st =
  (([], Some e), mkState (broker st) w (calls st ++ [EvGetServices])).
Proof.
  intros H G. unfold Services, getCatalog. rewrite bind_eq. cbn [fst snd].
  rewrite H. unfold GetServices. rewrite bind_eq, call_eq, G. reflexivity.
Qed.

Lemma Services_fresh {W : Type} (cc : Client W) c (st : State W)
  services wn w :
  Catalog (broker st) = None ->
  api_GetServices cc (world st) = ((services, wn, None), w) ->
  let r := range services (assemble cc) []
             (mkState (broker st) w (calls st ++ [EvGetServices])) in
  Services cc c st =
  ((fst r, None),
   mkState (mkCFBrokerProxy (Some (fst r)) (SpaceGUID (broker (snd r))))
     (world (snd r)) (calls (snd r))).
Proof.
  intros H G r. unfold Services, getCatalog. rewrite bind_eq. cbn [fst snd].
  rewrite H. unfold GetServices. rewrite bind_eq, call_eq, G. cbn [fst snd].
  rewrite bind_eq. fold (assemble cc). fold r.
  unfold setCatalog. rewrite bind_eq. reflexivity.
Qed.

Lemma assemble_broker {W : Type} (cc : Client W) acc s (st : State W) :
  broker (snd (assemble cc acc s st)) = broker st.
Proof.
  unfold assemble. rewrite bind_eq. cbn [snd ret].
  apply getServicePlans_broker.
Qed.

Lemma assemble_within_limit {W : Type} (cc : Client W) acc s (st : State W) :
  Forall service_within_limit acc ->
  Forall service_within_limit (fst (assemble cc acc s st)).
Proof.
  intros H. unfold assemble. rewrite bind_eq. cbn [fst ret].
  apply Forall_app. split; [exact H|]. constructor; [|constructor].
  split; cbn.
  - apply sliceDescription_length.
  - apply getServicePlans_within_limit.
Qed.

Lemma range_assemble {W : Type} (cc : Client W) services acc (st : State W) :
  Forall service_within_limit acc ->
  Forall service_within_limit (fst (range services (assemble cc) acc st)) /\
  broker (snd (range services (assemble cc) acc st)) = broker st.
Proof.
  intros H.
  apply (range_invariant (Forall service_within_limit)
           (fun st' => broker st' = broker st)); auto.
  intros acc' x st' HP HI. split.
  - now apply assemble_within_limit.
  - now rewrite assemble_broker.
Qed.

(** The entries come out in the order of the services, one each. *)
Lemma range_assemble_map {W : Type} (cc : Client W) {X : Type}
  (proj : brokerapi.Service.t -> X) (from : ccv2.Service.t -> X) :
  (forall s planList, proj (catalogEntry s planList) = from s) ->
  forall services acc (st : State W),
    map proj (fst (range services (assemble cc) acc st)) =
    map proj acc ++ map from services.
Proof.
  intros Hp. induction services as [|s services IH]; intros acc st; simpl.
  - now rewrite app_nil_r.
  - rewrite bind_eq, IH. unfold assemble. rewrite bind_eq. cbn [fst ret].
    rewrite map_app, <- app_assoc. simpl. now rewrite Hp.
Qed.

(** ** The protocol server, request after request *)

Lemma snd_serve {W : Type} (cc : Client W) (op : Operation) (st : State W) :
  snd (serve cc op st) =
  match op with
  | OpServices c => snd (Services cc c st)
  | OpProvision c i d a => snd (Provision cc c i d a st)
  | OpDeprovision c i d a => snd (Deprovision cc c i d a st)
  | OpBind c i b d => snd (Bind cc c i b d st)
  | OpUnbind c i b d => snd (Unbind cc c i b d st)
  | OpLastOperation c i o => snd (LastOperation cc c i o st)
  | OpUpdate c i d a => st
  end.
Proof.
  destruct op; cbn [serve]; try reflexivity;
    match goal with |- context [let (_, _) := ?m in _] => destruct m end;
    reflexivity.
Qed.

(** Once the catalog is cached it stays, and nothing fetches it again. *)
Lemma serve_cached {W : Type} (cc : Client W) (op : Operation)
  (st : State W) cached :
  Catalog (broker st) = Some cached ->
  Catalog (broker (snd (serve cc op st))) = Some cached /\
  adds not_catalog_fetch st (snd (serve cc op st)).
Proof.
  intros H. rewrite snd_serve. destruct op.
  - rewrite (Services_cached cc _ st cached H). split; [exact H|].
    apply adds_refl.
  - split; [now rewrite Provision_Catalog|apply Provision_no_catalog_fetch].
  - split; [now rewrite Deprovision_broker|apply Deprovision_no_catalog_fetch].
  - split; [now rewrite Bind_broker|apply Bind_no_catalog_fetch].
  - split; [now rewrite Unbind_broker|apply Unbind_no_catalog_fetch].
  - split; [now rewrite LastOperation_broker
           |apply LastOperation_no_catalog_fetch].
  - split; [exact H|apply adds_refl].
Qed.

Lemma serveAll_cached {W : Type} (cc : Client W) (ops : list Operation) :
  forall (st : State W) cached,
    Catalog (broker st) = Some cached ->
    Catalog (broker (serveAll cc ops st)) = Some cached /\
    adds not_catalog_fetch st (serveAll cc ops st).
Proof.
  induction ops as [|op ops IH]; intros st cached H; cbn [serveAll].
  - split; [exact H|apply adds_refl].
  - destruct (serve_cached cc op st cached H) as [H1 A1].
    destruct (IH _ cached H1) as [H2 A2].
    split; [exact H2|]. eapply adds_trans; eassumption.
Qed.

(** A successful [Services] leaves the catalog it returns in the cache. *)
Lemma Services_success_caches {W : Type} (cc : Client W) c (st : State W)
  catalog st' :
  Services cc c st = ((catalog, None), st') ->
  Catalog (broker st') = Some catalog.
Proof.
  intros E. destruct (Catalog (broker st)) as [cached|] eqn:HC.
  - rewrite (Services_cached cc c st cached HC) in E.
    injection E as <- <-. exact HC.
  - destruct (api_GetServices cc (world st)) as [[[services wn] [e|]] w] eqn:G.
    + rewrite (Services_fetch_failed cc c st services wn e w HC G) in E.
      discriminate.
    + rewrite (Services_fresh cc c st services wn w HC G) in E.
      cbv zeta in E. injection E as <- <-. reflexivity.
Qed.

Lemma Services_within_limit {W : Type} (cc : Client W) c (st : State W) :
  catalog_inv (broker st) ->
  Forall service_within_limit (fst (fst (Services cc c st))) /\
  catalog_inv (broker (snd (Services cc c st))).
Proof.
  unfold catalog_inv. intros I.
  destruct (Catalog (broker st)) as [cached|] eqn:HC.
  - rewrite (Services_cached cc c st cached HC). cbn [fst snd].
    rewrite HC. split; exact I.
  - destruct (api_GetServices cc (world st)) as [[[services wn] [e|]] w] eqn:G.
    + rewrite (Services_fetch_failed cc c st services wn e w HC G).
      cbn [fst snd broker]. rewrite HC. split; [constructor|exact I].
    + rewrite (Services_fresh cc c st services wn w HC G).
      cbv zeta. cbn [fst snd broker Catalog].
      split; apply range_assemble; constructor.
Qed.

Lemma serve_catalog_inv {W : Type} (cc : Client W) (op : Operation)
  (st : State W) :
  catalog_inv (broker st) -> catalog_inv (broker (snd (serve cc op st))).
Proof.
  intros I. rewrite snd_serve. destruct op.
  - now apply Services_within_limit.
  - unfold catalog_inv. now rewrite Provision_Catalog.
  - now rewrite Deprovision_broker.
  - now rewrite Bind_broker.
  - now rewrite Unbind_broker.
  - now rewrite LastOperation_broker.
  - exact I.
Qed.

Lemma serveAll_catalog_inv {W : Type} (cc : Client W) (ops : list Operation) :
  forall st : State W,
    catalog_inv (broker st) -> catalog_inv (broker (serveAll cc ops st)).
Proof.
  induction ops as [|op ops IH]; intros st I; cbn [serveAll]; [exact I|].
  apply IH. now apply serve_catalog_inv.
Qed.

(** * The claims *)

(** The loop of [Services] builds the catalog the spec words. *)
Lemma range_assemble_sliced {W : Type} (cc : Client W) services :
  forall acc (st : State W),
    fst (range services (assemble cc) acc st) =
    acc ++ slicedCatalog cc services st.
Proof.
  induction services as [|s services IH]; intros acc st; simpl.
  - now rewrite app_nil_r.
  - rewrite bind_eq, IH. unfold assemble. rewrite bind_eq. cbn [fst snd ret].
    rewrite getServicePlans_eq. cbn [fst snd].
    rewrite <- app_assoc. reflexivity.
Qed.

(** C1, as stated, fails: the limit is counted in bytes, not in
    characters.  A description of 200 accented letters has 200 characters
    in 400 bytes: it does not exceed 254 characters, yet it is cut, to 127
    characters.  A description of 253 letters and one accented letter has
    254 characters: it is cut too, in the middle of its last character. *)
Lemma sliceDescription_counts_bytes_not_characters :
  (characters (Scenario.accents 200) = 200 /\
   String.length (Scenario.accents 200) = 400 /\
   characters (sliceDescription (Scenario.accents 200)) = 127 /\
   ~ sliced_in_characters (Scenario.accents 200)) /\
  (characters Scenario.accentLast = 254 /\
   String.length Scenario.accentLast = 255 /\
   sliceDescription Scenario.accentLast =
   (Stub.replicate 253 "a"%char ++ String (ascii_of_nat 195) "")%string /\
   ~ sliced_in_characters Scenario.accentLast).
Proof.
  split.
  - split; [reflexivity|]. split; [reflexivity|]. split; [reflexivity|].
    intros [_ [_ H]].
    assert (L : characters (Scenario.accents 200) <= 254)
      by (vm_compute; lia).
    apply H in L. apply (f_equal String.length) in L.
    vm_compute in L. discriminate L.
  - split; [reflexivity|]. split; [reflexivity|]. split; [reflexivity|].
    intros [_ [_ H]].
    assert (L : characters Scenario.accentLast <= 254)
      by (vm_compute; lia).
    apply H in L. apply (f_equal String.length) in L.
    vm_compute in L. discriminate L.
Qed.

(** C1, amended: catalog descriptions are at most 254 bytes long, whatever
    the length of the description the control API returns.
    (1) [sliceDescription] never returns more than 254 bytes; a longer
    input is cut to its first 254 bytes, a shorter one is returned as it
    is.  (2) From the broker [main] builds, after any sequence of requests,
    every entry of the catalog [Services] returns, and every plan of every
    entry, is within the limit.  (3) When [Services] assembles the
    catalog, the description of each entry is [sliceDescription] of the
    description of its service.  (4) Each plan entry [getServicePlans]
    builds carries [sliceDescription] of the description of its plan.
    (5) The catalog [Services] assembles and returns is, entry by entry
    and plan by plan, the catalog of the services fetched with the plans
    listed for each of them, every description of a service and of a plan
    sliced. *)
Theorem catalog_descriptions_within_254 :
  (forall original : string,
     String.length (sliceDescription original) <= 254 /\
     (254 < String.length original ->
      String.length (sliceDescription original) = 254 /\
      exists rest, original = (sliceDescription original ++ rest)%string) /\
     (String.length original <= 254 ->
      sliceDescription original = original)) /\
  (forall (W : Type) (cc : Client W) (w : W) (ops : list Operation)
          (context : Context),
     Forall service_within_limit
       (fst (fst (Services cc context
                    (serveAll cc ops (mkState newCFBrokerProxy w [])))))) /\
  (forall (W : Type) (cc : Client W) (context : Context) (st : State W)
          services wn w,
     Catalog (broker st) = None ->
     api_GetServices cc (world st) = ((services, wn, None), w) ->
     snd (fst (Services cc context st)) = None /\
     map brokerapi.Service.Description (fst (fst (Services cc context st))) =
     map (fun s => sliceDescription (ccv2.Service.Description s)) services) /\
  (forall (W : Type) (cc : Client W) (guid : string) (st : State W),
     map brokerapi.ServicePlan.Description
       (fst (getServicePlans cc guid st)) =
     map (fun p => sliceDescription (ccv2.ServicePlan.Description p))
       (fst (fst (fst (GetServicePlans cc
                         [ccv2.Filter.mk "service_guid" ":" [guid]] st))))) /\
  (forall (W : Type) (cc : Client W) (context : Context) (st : State W)
          services wn w,
     Catalog (broker st) = None ->
     api_GetServices cc (world st) = ((services, wn, None), w) ->
     fst (Services cc context st) =
     (slicedCatalog cc services
        (mkState (broker st) w (calls st ++ [EvGetServices])),
      None) /\
     Catalog (broker (snd (Services cc context st))) =
     Some (slicedCatalog cc services
             (mkState (broker st) w (calls st ++ [EvGetServices])))).
Proof.
  split; [|split; [|split; [|split]]].
  - intros original. split; [apply sliceDescription_length|]. split.
    + apply sliceDescription_long.
    + apply sliceDescription_short.
  - intros W cc w ops context.
    apply Services_within_limit, serveAll_catalog_inv. exact I.
  - intros W cc context st services wn w HC G.
    rewrite (Services_fresh cc context st services wn w HC G).
    cbv zeta. cbn [fst snd]. split; [reflexivity|].
    rewrite (range_assemble_map cc brokerapi.Service.Description
               (fun s => sliceDescription (ccv2.Service.Description s)));
      reflexivity.
  - intros W cc guid st. rewrite getServicePlans_eq. cbn [fst].
    rewrite map_map. reflexivity.
  - intros W cc context st services wn w HC G.
    rewrite (Services_fresh cc context st services wn w HC G).
    cbv zeta. cbn [fst snd broker Catalog].
    rewrite range_assemble_sliced. split; reflexivity.
Qed.

(** The end-to-end run of the spec: one service "s1" described in 300
    bytes, with one plan "p1", described in 300 bytes too. *)
Lemma catalog_descriptions_within_254_witness :
  (254 < String.length Stub.longDescription /\
   String.length (sliceDescription Stub.longDescription) = 254) /\
  (Catalog (broker Stub.start) = None /\
   map brokerapi.Service.Description
     (fst (fst (Services (Stub.client Stub.oneService) Background Stub.start)))
   = [sliceDescription Stub.longDescription]) /\
  sliceDescription "short" = "short" /\
  fst (Services (Stub.client Stub.oneService) Background Stub.start) =
  ([brokerapi.Service.mk "s1" "service-one"
      (sliceDescription Stub.longDescription) true false
      [brokerapi.ServicePlan.mk "p1" "plan-one"
         (sliceDescription Stub.longDescription)]],
   None).
Proof.
  destruct catalog_descriptions_within_254
    as [Hslice [_ [Hfresh [_ Hcatalog]]]].
  split; [|split; [|split]].
  - assert (H : 254 < String.length Stub.longDescription)
      by (vm_compute; lia).
    split; [exact H|].
    exact (proj1 (proj1 (proj2 (Hslice Stub.longDescription)) H)).
  - split; [reflexivity|].
    exact (proj2 (Hfresh nat (Stub.client Stub.oneService) Background
                    Stub.start [Stub.s1] [] 1 eq_refl eq_refl)).
  - apply (proj2 (proj2 (Hslice "short"))). vm_compute. lia.
  - exact (proj1 (Hcatalog nat (Stub.client Stub.oneService) Background
                    Stub.start [Stub.s1] [] 1 eq_refl eq_refl)).
Defined.

(** The end-to-end run of the spec, in full: one entry for "s1" with a
    description of 254 bytes and one plan entry, for "p1". *)
Example ListCatalog_end_to_end :
  exists entry plan,
    fst (Services (Stub.client Stub.oneService) Background Stub.start) =
    ([entry], None) /\
    brokerapi.Service.ID entry = "s1" /\
    String.length (brokerapi.Service.Description entry) = 254 /\
    brokerapi.Service.Plans entry = [plan] /\
    brokerapi.ServicePlan.ID plan = "p1" /\
    String.length (brokerapi.ServicePlan.Description plan) = 254.
Proof. do 2 eexists. repeat split. Qed.

(** C2. After one successful [Services], every later [Services], whatever
    requests were served in between, returns the same catalog without an
    error, leaves the state as it is (so it issues no call at all), and no
    request in between has fetched services or plans either. *)
Theorem ListCatalog_cached_after_first_success :
  forall (W : Type) (cc : Client W) (context : Context) (st st1 : State W)
         (catalog : list brokerapi.Service.t),
    Services cc context st = ((catalog, None), st1) ->
    forall (ops : list Operation) (context' : Context),
      Services cc context' (serveAll cc ops st1) =
      ((catalog, None), serveAll cc ops st1) /\
      issued (serveAll cc ops st1)
        (snd (Services cc context' (serveAll cc ops st1))) = [] /\
      filter is_catalog_fetch (calls (serveAll cc ops st1)) =
      filter is_catalog_fetch (calls st1).
Proof.
  intros W cc context st st1 catalog E ops context'.
  apply Services_success_caches in E.
  destruct (serveAll_cached cc ops st1 catalog E) as [HC HA].
  rewrite (Services_cached cc context' _ catalog HC). cbn [snd].
  split; [reflexivity|]. split.
  - unfold issued. apply skipn_all.
  - apply adds_filter. exact HA.
Qed.

(** The stub counts: the first [Services] issues two fetches, and a later
    one, after a provision and another [Services], none. *)
Lemma ListCatalog_cached_after_first_success_witness :
  let cc := Stub.client Stub.oneService in
  let first := Services cc Background Stub.start in
  let ops := [OpProvision Background "instance-1"
                (brokerapi.ProvisionDetails.mk "s1" "p1" "" "") true;
              OpServices Background] in
  snd (fst first) = None /\
  List.length (filter is_catalog_fetch (calls (snd first))) = 2 /\
  Services cc Background (serveAll cc ops (snd first)) =
  (fst first, serveAll cc ops (snd first)) /\
  List.length
    (filter is_catalog_fetch (calls (serveAll cc ops (snd first)))) = 2.
Proof.
  intros cc first ops.
  assert (E : Services cc Background Stub.start =
              ((fst (fst first), None), snd first)) by reflexivity.
  destruct (ListCatalog_cached_after_first_success nat cc Background
              Stub.start (snd first) (fst (fst first)) E ops Background)
    as [H1 [_ H3]].
  split; [reflexivity|]. split; [reflexivity|]. split.
  - exact H1.
  - rewrite H3. reflexivity.
Defined.

(** C9. [Update] returns the empty result and no error for every input,
    and leaves the state, with its log of calls, as it was. *)
Theorem Update_is_a_noop :
  forall (W : Type) (context : Context) (instanceID : string)
         (serviceDetails : brokerapi.UpdateDetails.t) (asyncAllowed : bool)
         (st : State W),
    Update context instanceID serviceDetails asyncAllowed st =
    ((brokerapi.UpdateServiceSpec.zero, None), st) /\
    issued st
      (snd (Update context instanceID serviceDetails asyncAllowed st)) = [].
Proof.
  intros. split; [reflexivity|]. unfold issued. cbn [snd Update ret].
  apply skipn_all.
Qed.

(** C4. When [Provision] succeeds, its result is built from the instance
    the control API created: [IsAsync] is true exactly when the state of
    the instance's last operation is "in progress", [OperationData] is the
    instance's GUID (and [DashboardURL] its dashboard URL); the create call
    is the last call issued. *)
Theorem Provision_isAsync_iff_in_progress :
  forall (W : Type) (cc : Client W) (context : Context) (instanceID : string)
         (serviceDetails : brokerapi.ProvisionDetails.t) (asyncAllowed : bool)
         (st st' : State W) (spec : brokerapi.ProvisionedServiceSpec.t),
    Provision cc context instanceID serviceDetails asyncAllowed st =
    ((spec, None), st') ->
    exists (serviceInstance : ccv2.ServiceInstance.t) wn w evs,
      api_CreateServiceInstance cc instanceID
        (brokerapi.ProvisionDetails.PlanID serviceDetails)
        (SpaceGUID (broker st')) asyncAllowed [] w =
      ((serviceInstance, wn, None), world st') /\
      calls st' =
      evs ++ [EvCreateServiceInstance instanceID
                (brokerapi.ProvisionDetails.PlanID serviceDetails)
                (SpaceGUID (broker st')) asyncAllowed []] /\
      (brokerapi.ProvisionedServiceSpec.IsAsync spec = true <->
       ccv2.LastOperation.State
         (ccv2.ServiceInstance.LastOperation serviceInstance) =
       "in progress") /\
      brokerapi.ProvisionedServiceSpec.OperationData spec =
      ccv2.ServiceInstance.GUID serviceInstance /\
      brokerapi.ProvisionedServiceSpec.DashboardURL spec =
      ccv2.ServiceInstance.DashboardURL serviceInstance.
Proof.
  intros W cc context instanceID serviceDetails asyncAllowed st st' spec.
  unfold Provision, getSpaceGUID, setSpaceGUID. unfold_client.
  run; intros E; try discriminate; injection E as <- <-;
    cbn [broker world calls SpaceGUID];
    (eexists; eexists; eexists; eexists;
     split; [eassumption|]; split; [reflexivity|];
     split; [apply String.eqb_eq|split; reflexivity]).
Qed.

(** A provision on the one space of the stub: the instance is created in
    progress, so the result is asynchronous. *)
Lemma Provision_isAsync_iff_in_progress_witness :
  let r := Provision (Stub.client Stub.createWorks) Background "instance-1"
             (brokerapi.ProvisionDetails.mk "s1" "p1" "" "") true
             Stub.start in
  snd (fst r) = None /\
  brokerapi.ProvisionedServiceSpec.IsAsync (fst (fst r)) = true /\
  brokerapi.ProvisionedServiceSpec.OperationData (fst (fst r)) =
  "instance-guid".
Proof.
  intros r.
  destruct (Provision_isAsync_iff_in_progress nat
              (Stub.client Stub.createWorks) Background "instance-1"
              (brokerapi.ProvisionDetails.mk "s1" "p1" "" "") true
              Stub.start (snd r) (fst (fst r)) eq_refl)
    as [serviceInstance [wn [w [evs [H1 [_ [H3 [H4 _]]]]]]]].
  assert (E : serviceInstance = Stub.inProgress).
  { unfold Stub.client, Stub.answer in H1. cbn in H1. congruence. }
  subst serviceInstance.
  split; [reflexivity|]. split.
  - apply H3. reflexivity.
  - exact H4.
Defined.

(** C5. With no space identifier cached ([SpaceGUID] is the empty string):
    (1) when the control API returns no space, [Provision] fails with the
    error "Available spaces not found", having issued the space lookup
    only (no instance is created) and leaving the broker as it was;
    (2) whenever [Provision] leaves a space identifier cached, the lookup
    returned at least one space and the identifier is that of the first;
    (3) when the lookup returns at least one space, the first one's
    identifier is cached and the instance is created in it. *)
Theorem Provision_resolves_space :
  forall (W : Type) (cc : Client W) (context : Context) (instanceID : string)
         (serviceDetails : brokerapi.ProvisionDetails.t) (asyncAllowed : bool)
         (st : State W),
    SpaceGUID (broker st) = "" ->
    (forall wn w,
       api_GetSpaces cc (world st) = (([], wn, None), w) ->
       Provision cc context instanceID serviceDetails asyncAllowed st =
       ((brokerapi.ProvisionedServiceSpec.zero,
         Some (errorString "Available spaces not found")),
        mkState (broker st) w (calls st ++ [EvGetSpaces]))) /\
    (SpaceGUID
       (broker (snd (Provision cc context instanceID serviceDetails
                       asyncAllowed st))) <> "" ->
     exists first rest wn w,
       api_GetSpaces cc (world st) = ((first :: rest, wn, None), w) /\
       SpaceGUID
         (broker (snd (Provision cc context instanceID serviceDetails
                         asyncAllowed st))) = ccv2.Space.GUID first) /\
    (forall first rest wn w,
       api_GetSpaces cc (world st) = ((first :: rest, wn, None), w) ->
       SpaceGUID
         (broker (snd (Provision cc context instanceID serviceDetails
                         asyncAllowed st))) = ccv2.Space.GUID first /\
       calls (snd (Provision cc context instanceID serviceDetails
                     asyncAllowed st)) =
       calls st ++
       [EvGetSpaces;
        EvCreateServiceInstance instanceID
          (brokerapi.ProvisionDetails.PlanID serviceDetails)
          (ccv2.Space.GUID first) asyncAllowed []]).
Proof.
  intros W cc context instanceID serviceDetails asyncAllowed st HS.
  unfold Provision, getSpaceGUID, setSpaceGUID. unfold_client.
  rewrite !bind_eq. cbn [fst snd]. rewrite HS. cbn [String.eqb].
  split; [|split].
  - intros wn w G. rewrite bind_eq, call_eq, G. reflexivity.
  - run; cbn [SpaceGUID]; intros H; try (rewrite HS in H; now elim H);
      do 4 eexists; split; reflexivity.
  - intros first rest wn w G. rewrite !bind_eq, !call_eq, G.
    cbn [fst snd List.length Nat.ltb Nat.leb nth].
    run; cbn [SpaceGUID]; rewrite <- app_assoc; split; reflexivity.
Qed.

(** No space on the stub: the provision fails after the lookup, and the
    log holds no create call. *)
Lemma Provision_resolves_space_witness :
  let r := Provision (Stub.client Stub.quiet) Background "instance-1"
             (brokerapi.ProvisionDetails.mk "s1" "p1" "" "") true
             Stub.start in
  SpaceGUID (broker Stub.start) = "" /\
  fst r = (brokerapi.ProvisionedServiceSpec.zero,
           Some (errorString "Available spaces not found")) /\
  calls (snd r) = [EvGetSpaces] /\
  broker (snd r) = broker Stub.start.
Proof.
  intros r.
  destruct (Provision_resolves_space nat (Stub.client Stub.quiet) Background
              "instance-1" (brokerapi.ProvisionDetails.mk "s1" "p1" "" "")
              true Stub.start eq_refl) as [H1 _].
  specialize (H1 [] 1 eq_refl).
  split; [reflexivity|]. unfold r. rewrite H1. repeat split.
Defined.

(** C6. When the lookup of instances named [instanceID] returns none,
    [Deprovision] and [Bind] fail with the error "Service instance with
    name ... not found", having issued the lookup only: no call that
    creates or deletes anything. *)
Theorem Deprovision_Bind_instance_not_found :
  forall (W : Type) (cc : Client W) (context : Context) (instanceID : string)
         (st : State W) wn w,
    api_GetServiceInstances cc [nameFilter instanceID] (world st) =
    (([], wn, None), w) ->
    let notFound :=
      errorString
        ("Service instance with name " ++ instanceID ++ " not found")%string in
    let st' :=
      mkState (broker st) w
        (calls st ++ [EvGetServiceInstances [nameFilter instanceID]]) in
    (forall details asyncAllowed,
       Deprovision cc context instanceID details asyncAllowed st =
       ((brokerapi.DeprovisionServiceSpec.zero, Some notFound), st')) /\
    (forall bindingID details,
       Bind cc context instanceID bindingID details st =
       ((brokerapi.Binding.zero, Some notFound), st')) /\
    issued st st' = [EvGetServiceInstances [nameFilter instanceID]] /\
    existsb is_mutating (issued st st') = false.
Proof.
  intros W cc context instanceID st wn w G notFound st'.
  assert (HI : issued st st' =
               [EvGetServiceInstances [nameFilter instanceID]]).
  { unfold issued, st'. cbn [calls]. rewrite skipn_app, skipn_all.
    rewrite Nat.sub_diag. reflexivity. }
  split; [|split; [|split]].
  - intros details asyncAllowed.
    unfold Deprovision, findFirstServiceInstanceWithName, GetServiceInstances.
    rewrite !bind_eq, call_eq, G. reflexivity.
  - intros bindingID details.
    unfold Bind, findFirstServiceInstanceWithName, GetServiceInstances.
    rewrite !bind_eq, call_eq, G. reflexivity.
  - exact HI.
  - rewrite HI. reflexivity.
Qed.

(** No instance on the stub: both requests fail with the not-found error
    of "instance-1" and issue one call, the lookup. *)
Lemma Deprovision_Bind_instance_not_found_witness :
  let cc := Stub.client Stub.quiet in
  let notFound :=
    errorString "Service instance with name instance-1 not found" in
  fst (Deprovision cc Background "instance-1"
         (brokerapi.DeprovisionDetails.mk "p1" "s1") true Stub.start) =
  (brokerapi.DeprovisionServiceSpec.zero, Some notFound) /\
  fst (Bind cc Background "instance-1" "binding-1"
         (brokerapi.BindDetails.mk "" "p1" "s1") Stub.start) =
  (brokerapi.Binding.zero, Some notFound) /\
  calls (snd (Bind cc Background "instance-1" "binding-1"
                (brokerapi.BindDetails.mk "" "p1" "s1") Stub.start)) =
  [EvGetServiceInstances [nameFilter "instance-1"]].
Proof.
  intros cc notFound.
  destruct (Deprovision_Bind_instance_not_found nat cc Background
              "instance-1" Stub.start [] 1 eq_refl) as [HD [HB _]].
  rewrite HD, HB. repeat split.
Defined.



(** ** Supporting facts on the calls issued *)

Lemma issued_app {W : Type} (st : State W) b w evs :
  issued st (mkState b w (calls st ++ evs)) = evs.
Proof.
  unfold issued. cbn [calls].
  rewrite skipn_app, skipn_all, Nat.sub_diag. reflexivity.
Qed.

Lemma issued_none {W : Type} (st : State W) b w :
  issued st (mkState b w (calls st)) = [].
Proof. unfold issued. cbn [calls]. apply skipn_all. Qed.

Lemma issued_self {W : Type} (st : State W) : issued st st = [].
Proof. unfold issued. apply skipn_all. Qed.

Ltac show_issued :=
  rewrite <- ?app_assoc; rewrite ?issued_app, ?issued_none, ?issued_self.

(** [CreateServiceKey] does not read [acceptsIncomplete]. *)
Lemma CreateServiceKey_ignores_acceptsIncomplete {W : Type} (cc : Client W)
  (serviceInstanceGUID keyName : string) (parameters : JSONMap)
  (acceptsIncomplete acceptsIncomplete' : bool) (st : State W) :
  CreateServiceKey cc serviceInstanceGUID keyName acceptsIncomplete
    parameters st =
  CreateServiceKey cc serviceInstanceGUID keyName acceptsIncomplete'
    parameters st.
Proof. reflexivity. Qed.

(** C8. [Bind] hands [acceptsIncomplete = true] to [CreateServiceKey],
    but [CreateServiceKey] does not read it and writes
    accepts_incomplete=false into the query of the request:
    (1) its outcome is the same for both values of the flag;
    (2) every request [Bind] makes through the connection, in every state
    and for every input, carries accepts_incomplete=false;
    (3) on the stub with one instance, [Bind] returns the credentials of
    the key created and has issued the lookup by name and one request,
    which posts a key named after the binding on the instance found, with
    no parameters and accepts_incomplete=false. *)
Theorem Bind_does_not_accept_incomplete :
  (forall (W : Type) (cc : Client W) (serviceInstanceGUID keyName : string)
          (parameters : JSONMap) (st : State W),
     CreateServiceKey cc serviceInstanceGUID keyName true parameters st =
     CreateServiceKey cc serviceInstanceGUID keyName false parameters st) /\
  (forall (W : Type) (cc : Client W) (context : Context)
          (instanceID bindingID : string) (details : brokerapi.BindDetails.t)
          (st : State W),
     Forall (made_with_query [("accepts_incomplete", ["false"])])
       (issued st (snd (Bind cc context instanceID bindingID details st)))) /\
  Bind (Stub.client Stub.oneInstance) Background "instance-1" "binding-1"
    (brokerapi.BindDetails.mk "" "p1" "s1") Stub.start =
  ((brokerapi.Binding.mk (Some [("password", JString "secret")]), None),
   mkState newCFBrokerProxy 2
     [EvGetServiceInstances [ccv2.Filter.mk "name" ":" ["instance-1"]];
      EvMake
        (mkRequestOptions PostServiceKeyRequest []
           [("accepts_incomplete", ["false"])]
           (Some (mkServiceKeyRequestBody "instance-guid" "binding-1" [])))]).
Proof.
  split; [|split].
  - reflexivity.
  - intros W cc context instanceID bindingID details st.
    unfold Bind, findFirstServiceInstanceWithName. unfold_client.
    run; show_issued; repeat constructor.
  - reflexivity.
Qed.

(** C3. A failure of the service fetch is returned as it is, with an
    empty catalog; a failure of a plan fetch is not returned at all.
    (1) For every client and state, the error [Services] returns is [nil]
    when a catalog is cached and the error of the service fetch, as it is,
    otherwise: never the error of a plan fetch.
    On the stub whose plan listing fails with [Stub.unavailable]:
    (2) [GetServicePlans] reports that error to [getServicePlans];
    (3) [Services] still succeeds, with the service and no plan, and
    (4) caches that catalog.  (5) On the stub whose service listing fails,
    [Services] returns the error of the listing and an empty catalog. *)
Theorem Services_drops_plan_fetch_failure :
  (forall (W : Type) (cc : Client W) (context : Context) (st : State W),
     snd (fst (Services cc context st)) =
     match Catalog (broker st) with
     | Some _ => None
     | None => snd (fst (api_GetServices cc (world st)))
     end) /\
  snd (fst (GetServicePlans (Stub.client Stub.plansFail)
              [ccv2.Filter.mk "service_guid" ":" ["s1"]]
              (mkState newCFBrokerProxy 1 [EvGetServices]))) =
  Some Stub.unavailable /\
  fst (Services (Stub.client Stub.plansFail) Background Stub.start) =
  ([catalogEntry Stub.s1 []], None) /\
  Catalog
    (broker (snd (Services (Stub.client Stub.plansFail) Background
                    Stub.start))) =
  Some [catalogEntry Stub.s1 []] /\
  fst (Services (Stub.client Stub.servicesFail) Background Stub.start) =
  ([], Some Stub.unavailable).
Proof.
  split; [|repeat split].
  intros W cc context st.
  destruct (Catalog (broker st)) as [cached|] eqn:HC.
  - now rewrite (Services_cached cc context st cached HC).
  - destruct (api_GetServices cc (world st)) as [[[services wn] [e|]] w] eqn:G.
    + now rewrite (Services_fetch_failed cc context st services wn e w HC G).
    + now rewrite (Services_fresh cc context st services wn w HC G).
Qed.

(** ** Supporting facts on errors and the caches *)

(** Once the services are fetched, [Services] returns no error, whatever
    the plan fetches answer. *)
Lemma Services_no_error_after_service_fetch {W : Type} (cc : Client W) c
  (st : State W) services wn w :
  api_GetServices cc (world st) = ((services, wn, None), w) ->
  snd (fst (Services cc c st)) = None.
Proof.
  intros G. destruct (Catalog (broker st)) as [cached|] eqn:HC.
  - now rewrite (Services_cached cc c st cached HC).
  - now rewrite (Services_fresh cc c st services wn w HC G).
Qed.

(** [Services] returns an error only when nothing is cached and the
    service fetch fails; the broker is then left as it was. *)
Lemma Services_error {W : Type} (cc : Client W) c (st : State W) e :
  snd (fst (Services cc c st)) = Some e ->
  Catalog (broker st) = None /\
  broker (snd (Services cc c st)) = broker st /\
  exists services wn w,
    api_GetServices cc (world st) = ((services, wn, Some e), w).
Proof.
  intros E. destruct (Catalog (broker st)) as [cached|] eqn:HC.
  - rewrite (Services_cached cc c st cached HC) in E. discriminate.
  - destruct (api_GetServices cc (world st)) as [[[services wn] [e'|]] w] eqn:G.
    + rewrite (Services_fetch_failed cc c st services wn e' w HC G) in *.
      cbn in E. injection E as ->. repeat split. now exists services, wn, w.
    + rewrite (Services_no_error_after_service_fetch cc c st services wn w G)
        in E. discriminate.
Qed.

Lemma Services_SpaceGUID {W : Type} (cc : Client W) c (st : State W) :
  SpaceGUID (broker (snd (Services cc c st))) = SpaceGUID (broker st).
Proof.
  destruct (Catalog (broker st)) as [cached|] eqn:HC.
  - now rewrite (Services_cached cc c st cached HC).
  - destruct (api_GetServices cc (world st)) as [[[services wn] [e|]] w] eqn:G.
    + now rewrite (Services_fetch_failed cc c st services wn e w HC G).
    + rewrite (Services_fresh cc c st services wn w HC G).
      cbv zeta. cbn [snd broker SpaceGUID].
      pose proof (range_assemble cc services []
                    (mkState (broker st) w (calls st ++ [EvGetServices]))
                    (Forall_nil _)) as [_ H].
      now rewrite H.
Qed.

(** What [Provision] leaves of the space identifier: it is kept, or it was
    not cached and is now that of the first space of a successful lookup. *)
Lemma Provision_SpaceGUID {W : Type} (cc : Client W) c i d a (st : State W) :
  SpaceGUID (broker (snd (Provision cc c i d a st))) = SpaceGUID (broker st) \/
  SpaceGUID (broker st) = "" /\
  exists first rest wn w,
    api_GetSpaces cc (world st) = ((first :: rest, wn, None), w) /\
    SpaceGUID (broker (snd (Provision cc c i d a st))) = ccv2.Space.GUID first.
Proof.
  destruct (api_GetSpaces cc (world st)) as [[[spaces wn] err] w] eqn:G.
  unfold Provision, getSpaceGUID, setSpaceGUID. unfold_client.
  rewrite !bind_eq. cbn [fst snd].
  destruct (String.eqb_spec (SpaceGUID (broker st)) "") as [HS|HS].
  - rewrite bind_eq, call_eq, G. cbn [fst snd].
    destruct err as [e|]; [now left|].
    destruct spaces as [|first rest];
      cbn [List.length Nat.ltb Nat.leb nth]; [now left|].
    right. split; [exact HS|]. exists first, rest, wn, w.
    split; [reflexivity|]. run; reflexivity.
  - left. run; reflexivity.
Qed.

(** When the lookup of spaces fails or finds none, [Provision] leaves the
    broker as it was. *)
Lemma Provision_lookup_failed {W : Type} (cc : Client W) c i d a
  (st : State W) spaces wn err w :
  SpaceGUID (broker st) = "" ->
  api_GetSpaces cc (world st) = ((spaces, wn, err), w) ->
  err <> None \/ spaces = [] ->
  snd (fst (Provision cc c i d a st)) <> None /\
  snd (Provision cc c i d a st) =
  mkState (broker st) w (calls st ++ [EvGetSpaces]).
Proof.
  intros HS G H. unfold Provision, getSpaceGUID, setSpaceGUID. unfold_client.
  rewrite !bind_eq. cbn [fst snd]. rewrite HS. cbn [String.eqb].
  rewrite bind_eq, call_eq, G. cbn [fst snd].
  destruct err as [e|].
  - split; [discriminate|reflexivity].
  - destruct H as [H| ->]; [now elim H|]. split; [discriminate|reflexivity].
Qed.

(** With nothing cached, [Services] starts by fetching the services. *)
Lemma Services_refetches {W : Type} (cc : Client W) c (st : State W) :
  Catalog (broker st) = None ->
  exists evs, calls (snd (Services cc c st)) =
              calls st ++ EvGetServices :: evs.
Proof.
  intros HC.
  destruct (api_GetServices cc (world st)) as [[[services wn] [e|]] w] eqn:G.
  - rewrite (Services_fetch_failed cc c st services wn e w HC G).
    now exists [].
  - rewrite (Services_fresh cc c st services wn w HC G).
    cbv zeta. cbn [snd calls].
    set (st0 := mkState (broker st) w (calls st ++ [EvGetServices])).
    assert (H : exists evs, calls (snd (range services (assemble cc) [] st0))
                            = calls st0 ++ evs).
    { apply (range_invariant (fun _ => True)
               (fun st' => exists evs, calls st' = calls st0 ++ evs));
        [|exact I|now exists []; rewrite app_nil_r].
      intros acc x st' _ [evs E]. split; [exact I|].
      unfold assemble. rewrite bind_eq. cbn [snd ret].
      rewrite getServicePlans_eq. cbn [snd].
      unfold_client. run; cbn [calls]; rewrite E, <- ?app_assoc;
        eexists; reflexivity. }
    destruct H as [evs E]. exists evs. rewrite E. unfold st0. cbn [calls].
    now rewrite <- app_assoc.
Qed.

Lemma fst_serve {W : Type} (cc : Client W) (op : Operation) (st : State W) :
  fst (serve cc op st) =
  match op with
  | OpServices c => snd (fst (Services cc c st))
  | OpProvision c i d a => snd (fst (Provision cc c i d a st))
  | OpDeprovision c i d a => snd (fst (Deprovision cc c i d a st))
  | OpBind c i b d => snd (fst (Bind cc c i b d st))
  | OpUnbind c i b d => fst (Unbind cc c i b d st)
  | OpLastOperation c i o => snd (fst (LastOperation cc c i o st))
  | OpUpdate c i d a => None
  end.
Proof.
  destruct op; cbn [serve]; try reflexivity;
    match goal with |- context [let (_, _) := ?m in _] => destruct m end;
    reflexivity.
Qed.

(** No request but [Services] touches the catalog cache. *)
Lemma serve_Catalog {W : Type} (cc : Client W) (op : Operation)
  (st : State W) :
  (forall c, op <> OpServices c) ->
  Catalog (broker (snd (serve cc op st))) = Catalog (broker st).
Proof.
  intros H. rewrite snd_serve. destruct op.
  - now elim (H context).
  - apply Provision_Catalog.
  - now rewrite Deprovision_broker.
  - now rewrite Bind_broker.
  - now rewrite Unbind_broker.
  - now rewrite LastOperation_broker.
  - reflexivity.
Qed.

(** No request but [Provision] touches the cached space identifier. *)
Lemma serve_SpaceGUID {W : Type} (cc : Client W) (op : Operation)
  (st : State W) :
  (forall c i d a, op <> OpProvision c i d a) ->
  SpaceGUID (broker (snd (serve cc op st))) = SpaceGUID (broker st).
Proof.
  intros H. rewrite snd_serve. destruct op.
  - apply Services_SpaceGUID.
  - now elim (H context instanceID serviceDetails asyncAllowed).
  - now rewrite Deprovision_broker.
  - now rewrite Bind_broker.
  - now rewrite Unbind_broker.
  - now rewrite LastOperation_broker.
  - reflexivity.
Qed.

(** C10, as stated, fails: on the stub with one space where creating an
    instance fails, [Provision] returns the error of the create call and
    has cached the identifier of the space all the same. *)
Lemma failed_Provision_leaves_space_cached :
  fst (serve (Stub.client Stub.createFails)
         (OpProvision Background "instance-1"
            (brokerapi.ProvisionDetails.mk "s1" "p1" "" "") true)
         Stub.start) = Some Stub.unavailable /\
  SpaceGUID (broker Stub.start) = "" /\
  SpaceGUID
    (broker
       (snd (serve (Stub.client Stub.createFails)
               (OpProvision Background "instance-1"
                  (brokerapi.ProvisionDetails.mk "s1" "p1" "" "") true)
               Stub.start))) = "space-1" /\
  ~ caches_unchanged_on_error (Stub.client Stub.createFails)
      (OpProvision Background "instance-1"
         (brokerapi.ProvisionDetails.mk "s1" "p1" "" "") true)
      Stub.start.
Proof.
  split; [reflexivity|]. split; [reflexivity|]. split; [reflexivity|].
  intros H.
  assert (E : fst (serve (Stub.client Stub.createFails)
                     (OpProvision Background "instance-1"
                        (brokerapi.ProvisionDetails.mk "s1" "p1" "" "") true)
                     Stub.start) <> None) by discriminate.
  apply H in E. discriminate E.
Qed.

(** With no space cached, a lookup that returns spaces caches the first
    one before the instance is created, whatever the create call answers;
    an error of the create call is then the error returned. *)
Lemma Provision_caches_first_space {W : Type} (cc : Client W) c i d a
  (st : State W) first rest wn w :
  SpaceGUID (broker st) = "" ->
  api_GetSpaces cc (world st) = ((first :: rest, wn, None), w) ->
  SpaceGUID (broker (snd (Provision cc c i d a st))) = ccv2.Space.GUID first /\
  forall created wn' e w',
    api_CreateServiceInstance cc i (brokerapi.ProvisionDetails.PlanID d)
      (ccv2.Space.GUID first) a [] w = ((created, wn', Some e), w') ->
    snd (fst (Provision cc c i d a st)) = Some e.
Proof.
  intros HS G. unfold Provision, getSpaceGUID, setSpaceGUID, GetSpaces,
    CreateServiceInstance.
  rewrite !bind_eq. cbn [fst snd]. rewrite HS. cbn [String.eqb].
  rewrite bind_eq, call_eq, G.
  cbn [fst snd List.length Nat.ltb Nat.leb nth].
  rewrite !bind_eq, call_eq. cbn [fst snd world broker SpaceGUID]. split.
  - destruct (api_CreateServiceInstance cc i _ _ a [] w)
      as [[[created wn'] [e|]] w']; reflexivity.
  - intros created wn' e w' C. rewrite C. reflexivity.
Qed.

(** A cached space identifier is not assigned again. *)
Lemma Provision_keeps_cached_space {W : Type} (cc : Client W) c i d a
  (st : State W) :
  SpaceGUID (broker st) <> "" ->
  broker (snd (Provision cc c i d a st)) = broker st.
Proof.
  intros HS. unfold Provision, getSpaceGUID, CreateServiceInstance.
  rewrite bind_eq. cbn [fst snd].
  destruct (String.eqb_spec (SpaceGUID (broker st)) "") as [E|_];
    [now elim HS|].
  run; reflexivity.
Qed.

(** C10, amended.  For every request served in every state:
    (1) the catalog cache changes only when the request is [Services] and
    it succeeds;
    (2) when the request returns an error, the catalog cache is unchanged,
    and the cached space identifier is unchanged too, unless the request is
    a [Provision] that found no identifier cached and whose lookup returned
    at least one space: then the identifier of the first space is cached;
    (3) when [Services] returns an error, nothing was cached, the broker is
    left as it was, and the next [Services] starts by fetching the services
    again;
    (4) when the space lookup of [Provision] fails or returns no space,
    [Provision] returns an error and leaves the broker as it was;
    (5) when [Provision] finds no identifier cached and its lookup returns
    at least one space, the identifier of the first space is cached
    whatever the create call answers: when the create call fails,
    [Provision] returns that error and the identifier stays cached;
    (6) no request but [Provision] changes the cached space identifier,
    whatever its outcome;
    (7) no request but [Services] changes the catalog cache, whatever its
    outcome;
    (8) a space identifier that is cached is changed by no request. *)
Theorem caches_after_an_error :
  forall (W : Type) (cc : Client W) (op : Operation) (st : State W),
    (Catalog (broker (snd (serve cc op st))) <> Catalog (broker st) ->
     fst (serve cc op st) = None /\ exists c, op = OpServices c) /\
    (forall e,
       fst (serve cc op st) = Some e ->
       Catalog (broker (snd (serve cc op st))) = Catalog (broker st) /\
       (SpaceGUID (broker (snd (serve cc op st))) = SpaceGUID (broker st) \/
        exists c i d a first rest wn w,
          op = OpProvision c i d a /\
          SpaceGUID (broker st) = "" /\
          api_GetSpaces cc (world st) = ((first :: rest, wn, None), w) /\
          SpaceGUID (broker (snd (serve cc op st))) =
          ccv2.Space.GUID first)) /\
    (forall c e,
       op = OpServices c ->
       fst (serve cc op st) = Some e ->
       Catalog (broker (snd (serve cc op st))) = None /\
       broker (snd (serve cc op st)) = broker st /\
       forall c',
       exists evs,
         calls (snd (Services cc c' (snd (serve cc op st)))) =
         calls (snd (serve cc op st)) ++ EvGetServices :: evs) /\
    (forall c i d a spaces wn err w,
       op = OpProvision c i d a ->
       SpaceGUID (broker st) = "" ->
       api_GetSpaces cc (world st) = ((spaces, wn, err), w) ->
       err <> None \/ spaces = [] ->
       fst (serve cc op st) <> None /\
       broker (snd (serve cc op st)) = broker st) /\
    (forall c i d a first rest wn w,
       op = OpProvision c i d a ->
       SpaceGUID (broker st) = "" ->
       api_GetSpaces cc (world st) = ((first :: rest, wn, None), w) ->
       SpaceGUID (broker (snd (serve cc op st))) = ccv2.Space.GUID first /\
       forall created wn' e w',
         api_CreateServiceInstance cc i (brokerapi.ProvisionDetails.PlanID d)
           (ccv2.Space.GUID first) a [] w = ((created, wn', Some e), w') ->
         fst (serve cc op st) = Some e /\
         SpaceGUID (broker (snd (serve cc op st))) = ccv2.Space.GUID first) /\
    ((forall c i d a, op <> OpProvision c i d a) ->
     SpaceGUID (broker (snd (serve cc op st))) = SpaceGUID (broker st)) /\
    ((forall c, op <> OpServices c) ->
     Catalog (broker (snd (serve cc op st))) = Catalog (broker st)) /\
    (SpaceGUID (broker st) <> "" ->
     SpaceGUID (broker (snd (serve cc op st))) = SpaceGUID (broker st)).
Proof.
  intros W cc op st.
  assert (HS : forall c e,
             op = OpServices c ->
             fst (serve cc op st) = Some e ->
             Catalog (broker st) = None /\
             broker (snd (serve cc op st)) = broker st).
  { intros c e -> E. rewrite fst_serve in E. rewrite snd_serve.
    destruct (Services_error cc c st e E) as [H1 [H2 _]]. now split. }
  split; [|split; [|split; [|split; [|split; [|split; [|split]]]]]].
  - intros HC. destruct op;
      try (elim HC; apply serve_Catalog; discriminate).
    split; [|now exists context].
    destruct (fst (serve cc (OpServices context) st)) as [e|] eqn:E;
      [|reflexivity].
    destruct (HS context e eq_refl eq_refl) as [_ HB]. elim HC.
    now rewrite HB.
  - intros e E. split.
    + destruct op; try (apply serve_Catalog; discriminate).
      destruct (HS context e eq_refl E) as [_ HB]. now rewrite HB.
    + destruct op; try (left; apply serve_SpaceGUID; discriminate).
      rewrite snd_serve.
      destruct (Provision_SpaceGUID cc context instanceID serviceDetails
                  asyncAllowed st)
        as [H|[H0 [first [rest [wn [w [G H]]]]]]]; [now left|].
      right.
      exists context, instanceID, serviceDetails, asyncAllowed,
        first, rest, wn, w.
      repeat split; assumption.
  - intros c e Hop E. destruct (HS c e Hop E) as [H1 H2].
    split; [now rewrite H2|]. split; [exact H2|].
    intros c'. apply Services_refetches. now rewrite H2.
  - intros c i d a spaces wn err w -> H0 G H.
    rewrite fst_serve, snd_serve.
    destruct (Provision_lookup_failed cc c i d a st spaces wn err w H0 G H)
      as [H1 H2].
    split; [exact H1|]. now rewrite H2.
  - intros c i d a first rest wn w -> H0 G.
    rewrite fst_serve, snd_serve.
    destruct (Provision_caches_first_space cc c i d a st first rest wn w
                H0 G) as [H1 H2].
    split; [exact H1|]. intros created wn' e w' C. split; [|exact H1].
    exact (H2 created wn' e w' C).
  - apply serve_SpaceGUID.
  - apply serve_Catalog.
  - intros HN. rewrite snd_serve. destruct op.
    + apply Services_SpaceGUID.
    + now rewrite Provision_keeps_cached_space.
    + now rewrite Deprovision_broker.
    + now rewrite Bind_broker.
    + now rewrite Unbind_broker.
    + now rewrite LastOperation_broker.
    + reflexivity.
Qed.

(** On the stubs: a failed service fetch leaves nothing cached and the next
    [Services] fetches again; a provision without spaces leaves the broker
    as it was; a provision whose create call fails returns that error,
    keeps the catalog cache and has cached the space; a listing of the
    catalog leaves the space identifier alone, a provision the catalog,
    and a provision with a space cached keeps that space. *)
Lemma caches_after_an_error_witness :
  let details := brokerapi.ProvisionDetails.mk "s1" "p1" "" "" in
  let failing := Stub.client Stub.servicesFail in
  let list := OpServices Background in
  let provision := OpProvision Background "instance-1" details true in
  (fst (serve failing list Stub.start) = Some Stub.unavailable /\
   Catalog (broker (snd (serve failing list Stub.start))) = None /\
   calls (snd (Services failing Background
                 (snd (serve failing list Stub.start)))) =
   [EvGetServices; EvGetServices]) /\
  (SpaceGUID (broker Stub.start) = "" /\
   broker (snd (serve (Stub.client Stub.quiet) provision Stub.start)) =
   broker Stub.start) /\
  (fst (serve (Stub.client Stub.createFails) provision Stub.start) =
   Some Stub.unavailable /\
   Catalog (broker (snd (serve (Stub.client Stub.createFails) provision
                           Stub.start))) = None /\
   SpaceGUID (broker (snd (serve (Stub.client Stub.createFails) provision
                             Stub.start))) = "space-1") /\
  (SpaceGUID (broker (snd (serve (Stub.client Stub.oneService) list
                             Scenario.spaceCached))) = "space-0" /\
   Catalog (broker (snd (serve (Stub.client Stub.createWorks) provision
                           Stub.start))) = None /\
   SpaceGUID (broker (snd (serve (Stub.client Stub.createWorks) provision
                             Scenario.spaceCached))) = "space-0").
Proof.
  intros details failing list provision. split; [|split; [|split]].
  - destruct (caches_after_an_error nat failing list Stub.start)
      as [_ [_ [H3 _]]].
    destruct (H3 Background Stub.unavailable eq_refl eq_refl) as [H [_ _]].
    split; [reflexivity|]. split; [exact H|reflexivity].
  - destruct (caches_after_an_error nat (Stub.client Stub.quiet) provision
                Stub.start) as [_ [_ [_ [H4 _]]]].
    destruct (H4 Background "instance-1" details true [] [] None 1
                eq_refl eq_refl eq_refl (or_intror eq_refl)) as [_ H].
    split; [reflexivity|exact H].
  - destruct (caches_after_an_error nat (Stub.client Stub.createFails)
                provision Stub.start) as [_ [H2 [_ [_ [H5 _]]]]].
    destruct (H2 Stub.unavailable eq_refl) as [H _].
    destruct (H5 Background "instance-1" details true Stub.sp1 [] [] 1
                eq_refl eq_refl eq_refl) as [_ H'].
    destruct (H' Stub.noInstance [] Stub.unavailable 2 eq_refl) as [HE HG].
    split; [exact HE|]. split; [exact H|exact HG].
  - destruct (caches_after_an_error nat (Stub.client Stub.oneService) list
                Scenario.spaceCached) as [_ [_ [_ [_ [_ [H6 _]]]]]].
    destruct (caches_after_an_error nat (Stub.client Stub.createWorks)
                provision Stub.start) as [_ [_ [_ [_ [_ [_ [H7 _]]]]]]].
    destruct (caches_after_an_error nat (Stub.client Stub.createWorks)
                provision Scenario.spaceCached)
      as [_ [_ [_ [_ [_ [_ [_ H8]]]]]]].
    split; [|split].
    + apply H6. intros c i d a. discriminate.
    + apply H7. intros c. discriminate.
    + apply H8. discriminate.
Defined.

(** * Further properties of the code *)

(** ** [sliceDescription] *)

Lemma string_append_empty (s : string) : (s ++ "")%string = s.
Proof. induction s as [|c s IH]; simpl; congruence. Qed.

(** X1. Slicing is idempotent, and what it returns is always a prefix of
    what it was given: slicing never rewrites a description, it only cuts
    its end. *)
Theorem sliceDescription_idempotent_prefix :
  forall original : string,
    sliceDescription (sliceDescription original) = sliceDescription original /\
    exists rest, original = (sliceDescription original ++ rest)%string.
Proof.
  intros original. split.
  - apply sliceDescription_short, sliceDescription_length.
  - destruct (Nat.lt_ge_cases 254 (String.length original)) as [H|H].
    + apply sliceDescription_long. exact H.
    + rewrite (sliceDescription_short original H). exists "".
      symmetry. apply string_append_empty.
Qed.

(** ** [Services]: the catalog it assembles and the calls it issues *)

Lemma map_constant_Forall {A B C : Type} (f : A -> B) (b : B) (l : list A)
  (l' : list C) :
  map f l = map (fun _ => b) l' -> Forall (fun x => f x = b) l.
Proof.
  revert l'. induction l as [|x l IH]; intros [|y l'] E;
    try discriminate; constructor; simpl in E.
  - congruence.
  - apply (IH l'). congruence.
Qed.

(** X2. When [Services] assembles the catalog, it holds one entry per
    service the control API returned, in the same order: the entry's [ID]
    is the service's GUID, its [Name] the service's label, and every entry
    is bindable and not plan-updatable. *)
Theorem Services_entries_mirror_services :
  forall (W : Type) (cc : Client W) (context : Context) (st : State W)
         services wn w,
    Catalog (broker st) = None ->
    api_GetServices cc (world st) = ((services, wn, None), w) ->
    map brokerapi.Service.ID (fst (fst (Services cc context st))) =
    map ccv2.Service.GUID services /\
    map brokerapi.Service.Name (fst (fst (Services cc context st))) =
    map ccv2.Service.Label services /\
    Forall (fun entry => brokerapi.Service.Bindable entry = true /\
                         brokerapi.Service.PlanUpdatable entry = false)
      (fst (fst (Services cc context st))) /\
    List.length (fst (fst (Services cc context st))) = List.length services.
Proof.
  intros W cc context st services wn w HC G.
  rewrite (Services_fresh cc context st services wn w HC G).
  cbv zeta. cbn [fst].
  set (st0 := mkState (broker st) w (calls st ++ [EvGetServices])).
  assert (HID := range_assemble_map cc brokerapi.Service.ID
                   ccv2.Service.GUID (fun _ _ => eq_refl) services [] st0).
  assert (HN := range_assemble_map cc brokerapi.Service.Name
                  ccv2.Service.Label (fun _ _ => eq_refl) services [] st0).
  assert (HB := range_assemble_map cc brokerapi.Service.Bindable
                  (fun _ => true) (fun _ _ => eq_refl) services [] st0).
  assert (HP := range_assemble_map cc brokerapi.Service.PlanUpdatable
                  (fun _ => false) (fun _ _ => eq_refl) services [] st0).
  cbn [map app] in HID, HN, HB, HP.
  split; [exact HID|]. split; [exact HN|]. split.
  - apply map_constant_Forall in HB. apply map_constant_Forall in HP.
    rewrite Forall_forall in *. intros entry Hin. split; auto.
  - rewrite <- (length_map brokerapi.Service.ID), HID. apply length_map.
Qed.

(** Two services on the stub give two entries, "s1" then "s2". *)
Lemma Services_entries_mirror_services_witness :
  map brokerapi.Service.ID
    (fst (fst (Services (Stub.client Scenario.partialPlans) Background
                 Stub.start))) = ["s1"; "s2"] /\
  map brokerapi.Service.Name
    (fst (fst (Services (Stub.client Scenario.partialPlans) Background
                 Stub.start))) = ["service-one"; "service-two"].
Proof.
  destruct (Services_entries_mirror_services nat
              (Stub.client Scenario.partialPlans) Background Stub.start
              [Stub.s1; Scenario.s2] [] 1 eq_refl eq_refl)
    as [HID [HN _]].
  split; [exact HID|exact HN].
Defined.

Lemma getServicePlans_calls {W : Type} (cc : Client W) (s : ccv2.Service.t)
  (st : State W) :
  calls (snd (getServicePlans cc (ccv2.Service.GUID s) st)) =
  calls st ++ planCalls cc s.
Proof.
  rewrite getServicePlans_eq. cbn [snd]. unfold planCalls, plansRequest.
  unfold_client. run; cbn [calls]; rewrite ?app_nil_r; reflexivity.
Qed.

Lemma range_assemble_calls {W : Type} (cc : Client W) services :
  forall acc (st : State W),
    calls (snd (range services (assemble cc) acc st)) =
    calls st ++ flat_map (planCalls cc) services.
Proof.
  induction services as [|s services IH]; intros acc st; simpl.
  - now rewrite app_nil_r.
  - rewrite bind_eq, IH. unfold assemble. rewrite bind_eq. cbn [snd ret].
    rewrite getServicePlans_calls, <- app_assoc. reflexivity.
Qed.

(** X3. Assembling the catalog costs one listing of the services and then
    one listing of plans per service, in the order of the services, each
    filtered on the GUID of its service (a listing whose request cannot be
    built is skipped): nothing else is called. *)
Theorem Services_call_sequence :
  forall (W : Type) (cc : Client W) (context : Context) (st : State W)
         services wn w,
    Catalog (broker st) = None ->
    api_GetServices cc (world st) = ((services, wn, None), w) ->
    calls (snd (Services cc context st)) =
    calls st ++ EvGetServices :: flat_map (planCalls cc) services.
Proof.
  intros W cc context st services wn w HC G.
  rewrite (Services_fresh cc context st services wn w HC G).
  cbv zeta. cbn [snd calls]. rewrite range_assemble_calls. cbn [calls].
  rewrite <- app_assoc. reflexivity.
Qed.

(** Two services on the stub: three calls, the second and third filtered
    on "s1" and "s2". *)
Lemma Services_call_sequence_witness :
  calls (snd (Services (Stub.client Scenario.partialPlans) Background
                Stub.start)) =
  [EvGetServices;
   EvPaginate (plansRequest (Stub.client Scenario.partialPlans) "s1");
   EvPaginate (plansRequest (Stub.client Scenario.partialPlans) "s2")].
Proof.
  exact (Services_call_sequence nat (Stub.client Scenario.partialPlans)
           Background Stub.start [Stub.s1; Scenario.s2] [] 1
           eq_refl eq_refl).
Defined.

Lemma planCalls_not_mutating {W : Type} (cc : Client W) services :
  existsb is_mutating (flat_map (planCalls cc) services) = false.
Proof.
  induction services as [|s services IH]; simpl; [reflexivity|].
  rewrite existsb_app, IH, orb_false_r. unfold planCalls.
  destruct (api_newHTTPRequest_err cc _); reflexivity.
Qed.

(** X4. [Services] is read-only on the control API: in every state and
    whatever the control API answers, none of the calls it issues creates
    or deletes anything. *)
Theorem Services_issues_no_mutating_call :
  forall (W : Type) (cc : Client W) (context : Context) (st : State W),
    existsb is_mutating (issued st (snd (Services cc context st))) = false.
Proof.
  intros W cc context st.
  destruct (Catalog (broker st)) as [cached|] eqn:HC.
  - rewrite (Services_cached cc context st cached HC). cbn [snd].
    now rewrite issued_self.
  - destruct (api_GetServices cc (world st)) as [[[services wn] [e|]] w] eqn:G.
    + rewrite (Services_fetch_failed cc context st services wn e w HC G).
      cbn [snd]. now rewrite issued_app.
    + rewrite (Services_fresh cc context st services wn w HC G).
      cbv zeta. unfold issued. cbn [snd calls].
      rewrite range_assemble_calls. cbn [calls].
      rewrite <- app_assoc, skipn_app, skipn_all, Nat.sub_diag.
      cbn [skipn app existsb is_mutating orb].
      apply planCalls_not_mutating.
Qed.

(** ** The listings of [ccv2]: what the callbacks of [paginate] collect *)

Lemma feed_keys (keys : list ccv2.ServiceKey.t) :
  forall acc : list ccv2.ServiceKey.t,
    feed (fun fullKeysList item =>
            match item with
            | ccv2.ItemServiceKey binding => (fullKeysList ++ [binding], None)
            | _ =>
                (fullKeysList,
                 Some (UnknownObjectInListError
                         (ccv2.ItemServiceKey ccv2.ServiceKey.zero) item))
            end)
      (map ccv2.ItemServiceKey keys) acc = (acc ++ keys, None).
Proof.
  induction keys as [|k keys IH]; intros acc; simpl.
  - now rewrite app_nil_r.
  - rewrite IH, <- app_assoc. reflexivity.
Qed.

Lemma feed_plans (plans : list ccv2.ServicePlan.t) :
  forall acc : list ccv2.ServicePlan.t,
    feed (fun fullServicePlansList item =>
            match item with
            | ccv2.ItemServicePlan plan =>
                (fullServicePlansList ++ [plan], None)
            | _ =>
                (fullServicePlansList,
                 Some (UnknownObjectInListError
                         (ccv2.ItemServicePlan ServicePlan_zero) item))
            end)
      (map ccv2.ItemServicePlan plans) acc = (acc ++ plans, None).
Proof.
  induction plans as [|p plans IH]; intros acc; simpl.
  - now rewrite app_nil_r.
  - rewrite IH, <- app_assoc. reflexivity.
Qed.

(** X5. [getServicePlans] keeps what a failed listing has read: when the
    pages hold the plans [plans] and the reading ends with any error (or
    none), the entries returned are those of [plans], in order, and the
    error is gone.  When the request cannot be built there is no entry and
    no call. *)
Theorem getServicePlans_keeps_partial_listing :
  forall (W : Type) (cc : Client W) (serviceGUID : string) (st : State W),
    (forall plans wn err w,
       api_newHTTPRequest_err cc (plansRequest cc serviceGUID) = None ->
       api_pages cc (plansRequest cc serviceGUID) (world st) =
       ((map ccv2.ItemServicePlan plans, wn, err), w) ->
       getServicePlans cc serviceGUID st =
       (map planEntry plans,
        mkState (broker st) w
          (calls st ++ [EvPaginate (plansRequest cc serviceGUID)]))) /\
    (forall e,
       api_newHTTPRequest_err cc (plansRequest cc serviceGUID) = Some e ->
       getServicePlans cc serviceGUID st = ([], st)).
Proof.
  intros W cc serviceGUID st. split.
  - intros plans wn err w HR HP. rewrite getServicePlans_eq.
    unfold GetServicePlans, newHTTPRequest, paginate.
    fold (plansRequest cc serviceGUID). rewrite HR.
    rewrite bind_eq, call_eq, HP. cbn [fst snd].
    rewrite feed_plans. reflexivity.
  - intros e HR. rewrite getServicePlans_eq.
    unfold GetServicePlans, newHTTPRequest.
    fold (plansRequest cc serviceGUID). rewrite HR. reflexivity.
Qed.

(** The listing of the stub reads two plans and fails: both are entries
    of the catalog. *)
Lemma getServicePlans_keeps_partial_listing_witness :
  map brokerapi.ServicePlan.ID
    (fst (getServicePlans (Stub.client Scenario.partialPlans) "s1"
            Stub.start)) = ["p1"; "p2"].
Proof.
  destruct (getServicePlans_keeps_partial_listing nat
              (Stub.client Scenario.partialPlans) "s1" Stub.start)
    as [H _].
  rewrite (H [Stub.p1; Scenario.p2] [] (Some Stub.unavailable) 1
             eq_refl eq_refl).
  reflexivity.
Defined.

(** X6. [GetServiceKeys] returns the keys of the pages read, in order,
    together with the warnings and the error of the reading: a listing that
    fails midway still returns the keys read so far, beside the error.  It
    issues one call and leaves the broker alone. *)
Theorem GetServiceKeys_returns_keys_read :
  forall (W : Type) (cc : Client W) (filters : list ccv2.Filter.t)
         (st : State W) keys wn err w,
    let request :=
      mkRequestOptions GetServiceKeysRequest []
        (api_ConvertFilterParameters cc filters) None in
    api_newHTTPRequest_err cc request = None ->
    api_pages cc request (world st) =
    ((map ccv2.ItemServiceKey keys, wn, err), w) ->
    GetServiceKeys cc filters st =
    ((keys, wn, err),
     mkState (broker st) w (calls st ++ [EvPaginate request])).
Proof.
  intros W cc filters st keys wn err w request HR HP.
  unfold GetServiceKeys, newHTTPRequest, paginate. fold request. rewrite HR.
  rewrite bind_eq, call_eq, HP. cbn [fst snd].
  rewrite feed_keys. reflexivity.
Qed.

(** The key listing of the stub reads one key and fails. *)
Lemma GetServiceKeys_returns_keys_read_witness :
  fst (GetServiceKeys (Stub.client Scenario.keysFail)
         [nameFilter "binding-1"] Stub.start) =
  ([Stub.key1], [], Some Stub.unavailable).
Proof.
  rewrite (GetServiceKeys_returns_keys_read nat
             (Stub.client Scenario.keysFail) [nameFilter "binding-1"]
             Stub.start [Stub.key1] [] (Some Stub.unavailable) 1
             eq_refl eq_refl).
  reflexivity.
Defined.

(** ** The service keys of [ccv2] *)

(** X8. The request [DeleteServiceKey] sends does not depend on its
    flag: for both values it issues the same calls, none when the request
    cannot be built (that error is then returned, with [ServiceKey{}] and
    no warnings) and otherwise one delete request for the GUID given,
    carrying accepts_incomplete=false.  With the flag false, as [Unbind]
    passes it, the key returned is [ServiceKey{}] whatever the control API
    answers, beside the warnings and the error of the connection. *)
Theorem DeleteServiceKey_request_ignores_flag :
  forall (W : Type) (cc : Client W) (serviceKeyGUID : string) (st : State W),
    issued st (snd (DeleteServiceKey cc serviceKeyGUID true st)) =
    issued st (snd (DeleteServiceKey cc serviceKeyGUID false st)) /\
    issued st (snd (DeleteServiceKey cc serviceKeyGUID false st)) =
    match api_newHTTPRequest_err cc (deleteKeyRequest serviceKeyGUID) with
    | Some _ => []
    | None => [EvMake (deleteKeyRequest serviceKeyGUID)]
    end /\
    fst (DeleteServiceKey cc serviceKeyGUID false st) =
    match api_newHTTPRequest_err cc (deleteKeyRequest serviceKeyGUID) with
    | Some e => (ccv2.ServiceKey.zero, [], Some e)
    | None =>
        (ccv2.ServiceKey.zero,
         snd (fst (fst (api_Make cc (deleteKeyRequest serviceKeyGUID)
                          (world st)))),
         snd (fst (api_Make cc (deleteKeyRequest serviceKeyGUID) (world st))))
    end.
Proof.
  intros W cc serviceKeyGUID st.
  unfold DeleteServiceKey, connection_Make, newHTTPRequest, deleteKeyRequest,
    accepts_incomplete_false.
  destruct (api_newHTTPRequest_err cc _) as [e|].
  - cbn [ret fst snd]. rewrite issued_self. repeat split.
  - rewrite !bind_eq, !call_eq.
    destruct (api_Make cc _ (world st)) as [[[k wn] e] w].
    cbn [fst snd ret]. rewrite issued_app. repeat split.
Qed.

(** X9. [CreateServiceKey] never returns a key beside an error: whenever
    its error is not nil the key is [ServiceKey{}].  It issues at most one
    call, the post of a key of the given name on the given instance with
    the given parameters; when the request cannot be built it returns
    that error, no warnings, and calls nothing. *)
Theorem CreateServiceKey_returns_no_key_on_error :
  forall (W : Type) (cc : Client W) (serviceInstanceGUID keyName : string)
         (acceptsIncomplete : bool) (parameters : JSONMap) (st : State W),
    (snd (fst (CreateServiceKey cc serviceInstanceGUID keyName
                 acceptsIncomplete parameters st)) <> None ->
     fst (fst (fst (CreateServiceKey cc serviceInstanceGUID keyName
                      acceptsIncomplete parameters st))) =
     ccv2.ServiceKey.zero) /\
    (forall e,
       api_newHTTPRequest_err cc
         (postKeyRequest serviceInstanceGUID keyName parameters) = Some e ->
       CreateServiceKey cc serviceInstanceGUID keyName acceptsIncomplete
         parameters st = ((ccv2.ServiceKey.zero, [], Some e), st)) /\
    (api_newHTTPRequest_err cc
       (postKeyRequest serviceInstanceGUID keyName parameters) = None ->
     issued st (snd (CreateServiceKey cc serviceInstanceGUID keyName
                       acceptsIncomplete parameters st)) =
     [EvMake (postKeyRequest serviceInstanceGUID keyName parameters)]).
Proof.
  intros W cc serviceInstanceGUID keyName acceptsIncomplete parameters st.
  unfold CreateServiceKey, connection_Make, newHTTPRequest, postKeyRequest,
    accepts_incomplete_false.
  destruct (api_newHTTPRequest_err cc _) as [e|].
  - split; [reflexivity|]. split; [|discriminate].
    intros e' E. injection E as <-. reflexivity.
  - rewrite !bind_eq, !call_eq.
    destruct (api_Make cc _ (world st)) as [[[k wn] [e|]] w];
      cbn [fst snd ret]; rewrite issued_app.
    + split; [reflexivity|]. split; [discriminate|reflexivity].
    + split; [intros H; now elim H|]. split; [discriminate|reflexivity].
Qed.

(** The stub answers the post with a key and an error: no key comes back.
    The client without routes calls nothing. *)
Lemma CreateServiceKey_returns_no_key_on_error_witness :
  (snd (fst (CreateServiceKey (Stub.client Scenario.twoInstances)
               "instance-guid" "binding-1" true [] Stub.start)) =
   Some Stub.unavailable /\
   fst (fst (fst (CreateServiceKey (Stub.client Scenario.twoInstances)
                    "instance-guid" "binding-1" true [] Stub.start))) =
   ccv2.ServiceKey.zero) /\
  CreateServiceKey Scenario.noRoute "instance-guid" "binding-1" true []
    Stub.start =
  ((ccv2.ServiceKey.zero, [], Some (errorString "no route")), Stub.start) /\
  issued Stub.start
    (snd (CreateServiceKey (Stub.client Scenario.twoInstances)
            "instance-guid" "binding-1" true [] Stub.start)) =
  [EvMake (postKeyRequest "instance-guid" "binding-1" [])].
Proof.
  destruct (CreateServiceKey_returns_no_key_on_error nat
              (Stub.client Scenario.twoInstances) "instance-guid"
              "binding-1" true [] Stub.start) as [H1 [_ H3]].
  destruct (CreateServiceKey_returns_no_key_on_error nat Scenario.noRoute
              "instance-guid" "binding-1" true [] Stub.start) as [_ [H2 _]].
  split; [|split].
  - split; [reflexivity|]. apply H1. discriminate.
  - exact (H2 (errorString "no route") eq_refl).
  - exact (H3 eq_refl).
Defined.

(** ** [Deprovision], [Bind] and the lookup by name *)

(** X10. When the lookup by name finds instances, [Deprovision] deletes
    the first of them, always with [acceptsIncomplete = true]: neither
    [asyncAllowed] nor [details] is read.  An error of the delete call is
    returned as it is with the empty result; otherwise the result is built
    from the record the delete call returned ([IsAsync] exactly when its
    last operation is "in progress", [OperationData] its GUID). *)
Theorem Deprovision_deletes_first_match_async :
  forall (W : Type) (cc : Client W) (context : Context) (instanceID : string)
         (details : brokerapi.DeprovisionDetails.t) (asyncAllowed : bool)
         (st : State W) first rest wn w deleted wn' err w',
    api_GetServiceInstances cc [nameFilter instanceID] (world st) =
    ((first :: rest, wn, None), w) ->
    api_DeleteServiceInstance cc (ccv2.ServiceInstance.GUID first) true w =
    ((deleted, wn', err), w') ->
    Deprovision cc context instanceID details asyncAllowed st =
    (match err with
     | Some e => (brokerapi.DeprovisionServiceSpec.zero, Some e)
     | None =>
         (brokerapi.DeprovisionServiceSpec.mk
            (String.eqb
               (ccv2.LastOperation.State
                  (ccv2.ServiceInstance.LastOperation deleted))
               "in progress")
            (ccv2.ServiceInstance.GUID deleted),
          None)
     end,
     mkState (broker st) w'
       (calls st ++
        [EvGetServiceInstances [nameFilter instanceID];
         EvDeleteServiceInstance (ccv2.ServiceInstance.GUID first) true])).
Proof.
  intros W cc context instanceID details asyncAllowed st first rest wn w
    deleted wn' err w' G D.
  unfold Deprovision, findFirstServiceInstanceWithName, GetServiceInstances,
    DeleteServiceInstance.
  rewrite !bind_eq, call_eq, G.
  cbn [fst snd List.length Nat.ltb Nat.leb nth ret].
  rewrite bind_eq, call_eq. cbn [world broker calls]. rewrite D.
  cbn [fst snd]. rewrite <- app_assoc.
  destruct err; reflexivity.
Qed.

(** Two instances are named "instance-1" on the stub: the first one is
    deleted, asynchronously, although the caller did not allow it. *)
Lemma Deprovision_deletes_first_match_async_witness :
  Deprovision (Stub.client Scenario.twoInstances) Background "instance-1"
    (brokerapi.DeprovisionDetails.mk "p1" "s1") false Stub.start =
  ((brokerapi.DeprovisionServiceSpec.mk true "instance-guid", None),
   mkState newCFBrokerProxy 2
     [EvGetServiceInstances [nameFilter "instance-1"];
      EvDeleteServiceInstance "instance-guid" true]).
Proof.
  exact (Deprovision_deletes_first_match_async nat
           (Stub.client Scenario.twoInstances) Background "instance-1"
           (brokerapi.DeprovisionDetails.mk "p1" "s1") false Stub.start
           Stub.inProgress [Scenario.otherInstance] [] 1
           Scenario.deleting [] None 2 eq_refl eq_refl).
Defined.

(** X11. An error of the lookup by name is returned as it is by
    [Deprovision] and by [Bind], with their empty results, even when the
    lookup hands back instances beside the error; the lookup is the only
    call issued. *)
Theorem lookup_error_is_returned_verbatim :
  forall (W : Type) (cc : Client W) (context : Context) (instanceID : string)
         (st : State W) instances wn e w,
    api_GetServiceInstances cc [nameFilter instanceID] (world st) =
    ((instances, wn, Some e), w) ->
    (forall details asyncAllowed,
       Deprovision cc context instanceID details asyncAllowed st =
       ((brokerapi.DeprovisionServiceSpec.zero, Some e),
        mkState (broker st) w
          (calls st ++ [EvGetServiceInstances [nameFilter instanceID]]))) /\
    (forall bindingID details,
       Bind cc context instanceID bindingID details st =
       ((brokerapi.Binding.zero, Some e),
        mkState (broker st) w
          (calls st ++ [EvGetServiceInstances [nameFilter instanceID]]))).
Proof.
  intros W cc context instanceID st instances wn e w G. split.
  - intros details asyncAllowed.
    unfold Deprovision, findFirstServiceInstanceWithName, GetServiceInstances.
    rewrite !bind_eq, call_eq, G. reflexivity.
  - intros bindingID details.
    unfold Bind, findFirstServiceInstanceWithName, GetServiceInstances.
    rewrite !bind_eq, call_eq, G. reflexivity.
Qed.

(** The lookup of the stub fails with an instance in hand: nothing is
    deleted and no key is created. *)
Lemma lookup_error_is_returned_verbatim_witness :
  fst (Deprovision (Stub.client Scenario.lookupFails) Background
         "instance-1" (brokerapi.DeprovisionDetails.mk "p1" "s1") true
         Stub.start) =
  (brokerapi.DeprovisionServiceSpec.zero, Some Stub.unavailable) /\
  Bind (Stub.client Scenario.lookupFails) Background "instance-1"
    "binding-1" (brokerapi.BindDetails.mk "" "p1" "s1") Stub.start =
  ((brokerapi.Binding.zero, Some Stub.unavailable),
   mkState newCFBrokerProxy 1
     [EvGetServiceInstances [nameFilter "instance-1"]]).
Proof.
  destruct (lookup_error_is_returned_verbatim nat
              (Stub.client Scenario.lookupFails) Background "instance-1"
              Stub.start [Stub.inProgress] [] Stub.unavailable 1 eq_refl)
    as [HD HB].
  split.
  - rewrite HD. reflexivity.
  - apply HB.
Defined.

(** X12. When the lookup by name finds instances, [Bind] posts one key,
    named [bindingID], on the first of them, with no parameters.  If the
    request cannot be built, or the post fails, that error is returned as
    it is with the empty binding; otherwise the binding carries the
    credentials of the key the post returned.  [details] is not read. *)
Theorem Bind_outcomes_after_lookup :
  forall (W : Type) (cc : Client W) (context : Context)
         (instanceID bindingID : string) (details : brokerapi.BindDetails.t)
         (st : State W) first rest wn w,
    api_GetServiceInstances cc [nameFilter instanceID] (world st) =
    ((first :: rest, wn, None), w) ->
    let request :=
      postKeyRequest (ccv2.ServiceInstance.GUID first) bindingID [] in
    let looked :=
      calls st ++ [EvGetServiceInstances [nameFilter instanceID]] in
    (forall e,
       api_newHTTPRequest_err cc request = Some e ->
       Bind cc context instanceID bindingID details st =
       ((brokerapi.Binding.zero, Some e), mkState (broker st) w looked)) /\
    (forall key wn' err w',
       api_newHTTPRequest_err cc request = None ->
       api_Make cc request w = ((key, wn', err), w') ->
       Bind cc context instanceID bindingID details st =
       (match err with
        | Some e => (brokerapi.Binding.zero, Some e)
        | None =>
            (brokerapi.Binding.mk (Some (ccv2.ServiceKey.Credentials key)),
             None)
        end,
        mkState (broker st) w' (looked ++ [EvMake request]))).
Proof.
  intros W cc context instanceID bindingID details st first rest wn w G
    request looked.
  unfold Bind, findFirstServiceInstanceWithName, GetServiceInstances.
  rewrite !bind_eq, call_eq, G.
  cbn [fst snd List.length Nat.ltb Nat.leb nth ret].
  unfold CreateServiceKey, connection_Make, newHTTPRequest,
    accepts_incomplete_false.
  fold (postKeyRequest (ccv2.ServiceInstance.GUID first) bindingID []).
  fold request. split.
  - intros e HR. rewrite bind_eq, HR. reflexivity.
  - intros key wn' err w' HR HM. rewrite bind_eq, HR.
    rewrite bind_eq, call_eq. cbn [world broker calls]. rewrite HM.
    cbn [fst snd]. destruct err; reflexivity.
Qed.

(** On the stubs: the post fails and its error comes back; no request can
    be built and only the lookup is issued. *)
Lemma Bind_outcomes_after_lookup_witness :
  Bind (Stub.client Scenario.twoInstances) Background "instance-1"
    "binding-1" (brokerapi.BindDetails.mk "" "p1" "s1") Stub.start =
  ((brokerapi.Binding.zero, Some Stub.unavailable),
   mkState newCFBrokerProxy 2
     [EvGetServiceInstances [nameFilter "instance-1"];
      EvMake (postKeyRequest "instance-guid" "binding-1" [])]) /\
  Bind Scenario.noRoute Background "instance-1" "binding-1"
    (brokerapi.BindDetails.mk "" "p1" "s1") Stub.start =
  ((brokerapi.Binding.zero, Some (errorString "no route")),
   mkState newCFBrokerProxy 1
     [EvGetServiceInstances [nameFilter "instance-1"]]).
Proof.
  split.
  - destruct (Bind_outcomes_after_lookup nat
                (Stub.client Scenario.twoInstances) Background "instance-1"
                "binding-1" (brokerapi.BindDetails.mk "" "p1" "s1")
                Stub.start Stub.inProgress [Scenario.otherInstance] [] 1
                eq_refl) as [_ H].
    exact (H Stub.key1 [] (Some Stub.unavailable) 2 eq_refl eq_refl).
  - destruct (Bind_outcomes_after_lookup nat Scenario.noRoute Background
                "instance-1" "binding-1"
                (brokerapi.BindDetails.mk "" "p1" "s1")
                Stub.start Stub.inProgress [] [] 1 eq_refl) as [H _].
    exact (H (errorString "no route") eq_refl).
Defined.

(** ** [Provision] and the cached space *)

(** X13. With a space identifier cached, [Provision] does not look spaces
    up: its only call creates the instance, named [instanceID], of the
    plan of [serviceDetails], in the cached space, with [asyncAllowed] as
    it was given and no parameters.  The broker is left as it was; an
    error of the call is returned as it is with the empty result. *)
Theorem Provision_with_cached_space :
  forall (W : Type) (cc : Client W) (context : Context) (instanceID : string)
         (serviceDetails : brokerapi.ProvisionDetails.t) (asyncAllowed : bool)
         (st : State W) created wn err w,
    SpaceGUID (broker st) <> "" ->
    api_CreateServiceInstance cc instanceID
      (brokerapi.ProvisionDetails.PlanID serviceDetails)
      (SpaceGUID (broker st)) asyncAllowed [] (world st) =
    ((created, wn, err), w) ->
    Provision cc context instanceID serviceDetails asyncAllowed st =
    (match err with
     | Some e => (brokerapi.ProvisionedServiceSpec.zero, Some e)
     | None =>
         (brokerapi.ProvisionedServiceSpec.mk
            (String.eqb
               (ccv2.LastOperation.State
                  (ccv2.ServiceInstance.LastOperation created))
               "in progress")
            (ccv2.ServiceInstance.DashboardURL created)
            (ccv2.ServiceInstance.GUID created),
          None)
     end,
     mkState (broker st) w
       (calls st ++
        [EvCreateServiceInstance instanceID
           (brokerapi.ProvisionDetails.PlanID serviceDetails)
           (SpaceGUID (broker st)) asyncAllowed []])).
Proof.
  intros W cc context instanceID serviceDetails asyncAllowed st created wn
    err w HS C.
  unfold Provision, getSpaceGUID, CreateServiceInstance.
  rewrite bind_eq. cbn [fst snd].
  destruct (String.eqb_spec (SpaceGUID (broker st)) "") as [E|_];
    [now elim HS|].
  rewrite !bind_eq, call_eq. cbn [fst snd]. rewrite C. cbn [fst snd].
  destruct err; reflexivity.
Qed.

(** A broker with "space-0" cached provisions there, on a stub whose only
    space is another one. *)
Lemma Provision_with_cached_space_witness :
  Provision (Stub.client Stub.createWorks) Background "instance-1"
    (brokerapi.ProvisionDetails.mk "s1" "p1" "" "") false
    Scenario.spaceCached =
  ((brokerapi.ProvisionedServiceSpec.mk true "https://dashboard"
      "instance-guid", None),
   mkState (mkCFBrokerProxy None "space-0") 1
     [EvCreateServiceInstance "instance-1" "p1" "space-0" false []]).
Proof.
  refine (Provision_with_cached_space nat (Stub.client Stub.createWorks)
            Background "instance-1"
            (brokerapi.ProvisionDetails.mk "s1" "p1" "" "") false
            Scenario.spaceCached Stub.inProgress [] None 1 _ eq_refl).
  discriminate.
Defined.

Lemma Services_adds {W : Type} (cc : Client W) (ok : Event -> bool) c
  (st : State W) :
  ok EvGetServices = true ->
  (forall request,
     opt_RequestName request = GetServicePlansRequest ->
     ok (EvPaginate request) = true) ->
  adds ok st (snd (Services cc c st)).
Proof.
  intros H1 H2.
  assert (HP : forall services,
             forallb ok (flat_map (planCalls cc) services) = true).
  { induction services as [|s services IH]; simpl; [reflexivity|].
    rewrite forallb_app, IH, andb_true_r. unfold planCalls.
    destruct (api_newHTTPRequest_err cc _); simpl; [reflexivity|].
    now rewrite H2. }
  destruct (Catalog (broker st)) as [cached|] eqn:HC.
  - rewrite (Services_cached cc c st cached HC). apply adds_refl.
  - destruct (api_GetServices cc (world st)) as [[[services wn] [e|]] w] eqn:G.
    + rewrite (Services_fetch_failed cc c st services wn e w HC G).
      exists [EvGetServices]. split; [reflexivity|]. simpl. now rewrite H1.
    + rewrite (Services_fresh cc c st services wn w HC G).
      cbv zeta. cbn [snd]. unfold adds. cbn [calls].
      rewrite range_assemble_calls. cbn [calls]. rewrite <- app_assoc.
      eexists. split; [reflexivity|]. simpl. now rewrite H1, HP.
Qed.

Lemma serve_keeps_space {W : Type} (cc : Client W) (op : Operation)
  (st : State W) :
  SpaceGUID (broker st) <> "" ->
  SpaceGUID (broker (snd (serve cc op st))) = SpaceGUID (broker st) /\
  adds not_space_lookup st (snd (serve cc op st)).
Proof.
  intros HS. rewrite snd_serve. destruct op.
  - split; [apply Services_SpaceGUID|].
    apply Services_adds; reflexivity.
  - unfold Provision, getSpaceGUID, CreateServiceInstance.
    rewrite bind_eq. cbn [fst snd].
    destruct (String.eqb_spec (SpaceGUID (broker st)) "") as [E|_];
      [now elim HS|].
    run; (split; [reflexivity|show_adds]).
  - rewrite Deprovision_broker. split; [reflexivity|].
    unfold Deprovision, findFirstServiceInstanceWithName. unfold_client.
    run; show_adds.
  - rewrite Bind_broker. split; [reflexivity|].
    unfold Bind, findFirstServiceInstanceWithName. unfold_client.
    run; show_adds.
  - rewrite Unbind_broker. split; [reflexivity|].
    unfold Unbind. unfold_client. run; show_adds.
  - rewrite LastOperation_broker. split; [reflexivity|].
    unfold LastOperation. unfold_client. run; show_adds.
  - split; [reflexivity|apply adds_refl].
Qed.

(** X14. The space identifier is resolved once: from a state where one is
    cached, whatever requests are served, it stays the same and spaces are
    never looked up again. *)
Theorem space_is_resolved_once :
  forall (W : Type) (cc : Client W) (ops : list Operation) (st : State W),
    SpaceGUID (broker st) <> "" ->
    SpaceGUID (broker (serveAll cc ops st)) = SpaceGUID (broker st) /\
    filter is_space_lookup (calls (serveAll cc ops st)) =
    filter is_space_lookup (calls st).
Proof.
  intros W cc ops. induction ops as [|op ops IH]; intros st HS;
    cbn [serveAll]; [split; reflexivity|].
  destruct (serve_keeps_space cc op st HS) as [E A].
  assert (HS' : SpaceGUID (broker (snd (serve cc op st))) <> "")
    by now rewrite E.
  destruct (IH _ HS') as [E' F']. split.
  - now rewrite E', E.
  - rewrite F'. apply adds_filter. exact A.
Qed.

(** After a first provision on the stub, a second provision, a listing of
    the catalog and a third provision add no space lookup. *)
Lemma space_is_resolved_once_witness :
  let cc := Stub.client Stub.createWorks in
  let provision :=
    OpProvision Background "instance-1"
      (brokerapi.ProvisionDetails.mk "s1" "p1" "" "") true in
  let st1 := snd (serve cc provision Stub.start) in
  SpaceGUID (broker st1) = "space-1" /\
  SpaceGUID
    (broker (serveAll cc [provision; OpServices Background; provision] st1)) =
  "space-1" /\
  List.length
    (filter is_space_lookup
       (calls (serveAll cc [provision; OpServices Background; provision]
                 st1))) = 1.
Proof.
  intros cc provision st1.
  assert (HS : SpaceGUID (broker st1) <> "") by discriminate.
  destruct (space_is_resolved_once nat cc
              [provision; OpServices Background; provision] st1 HS)
    as [E F].
  split; [reflexivity|]. split.
  - rewrite E. reflexivity.
  - rewrite F. reflexivity.
Defined.

(** X15. [Provision] returns the errors of the control API as they are:
    with no space cached, an error of the space lookup comes back with the
    empty result after that one call, spaces in hand or not, and nothing
    is cached; and when the lookup finds a space, an error of the create
    call comes back with the empty result. *)
Theorem Provision_returns_upstream_errors_verbatim :
  forall (W : Type) (cc : Client W) (context : Context) (instanceID : string)
         (serviceDetails : brokerapi.ProvisionDetails.t) (asyncAllowed : bool)
         (st : State W),
    SpaceGUID (broker st) = "" ->
    (forall spaces wn e w,
       api_GetSpaces cc (world st) = ((spaces, wn, Some e), w) ->
       Provision cc context instanceID serviceDetails asyncAllowed st =
       ((brokerapi.ProvisionedServiceSpec.zero, Some e),
        mkState (broker st) w (calls st ++ [EvGetSpaces]))) /\
    (forall first rest wn w created wn' e w',
       api_GetSpaces cc (world st) = ((first :: rest, wn, None), w) ->
       api_CreateServiceInstance cc instanceID
         (brokerapi.ProvisionDetails.PlanID serviceDetails)
         (ccv2.Space.GUID first) asyncAllowed [] w =
       ((created, wn', Some e), w') ->
       fst (Provision cc context instanceID serviceDetails asyncAllowed st) =
       (brokerapi.ProvisionedServiceSpec.zero, Some e)).
Proof.
  intros W cc context instanceID serviceDetails asyncAllowed st HS.
  unfold Provision, getSpaceGUID, setSpaceGUID, GetSpaces,
    CreateServiceInstance.
  rewrite !bind_eq. cbn [fst snd]. rewrite HS. cbn [String.eqb].
  split.
  - intros spaces wn e w G. rewrite bind_eq, call_eq, G. reflexivity.
  - intros first rest wn w created wn' e w' G C.
    rewrite bind_eq, call_eq, G.
    cbn [fst snd List.length Nat.ltb Nat.leb nth].
    rewrite !bind_eq, call_eq. cbn [fst snd world broker SpaceGUID].
    rewrite C. reflexivity.
Qed.

(** On the stubs: the space lookup fails with a space in hand; the lookup
    works and the create call fails. *)
Lemma Provision_returns_upstream_errors_verbatim_witness :
  Provision (Stub.client Scenario.spacesFail) Background "instance-1"
    (brokerapi.ProvisionDetails.mk "s1" "p1" "" "") true Stub.start =
  ((brokerapi.ProvisionedServiceSpec.zero, Some Stub.unavailable),
   mkState newCFBrokerProxy 1 [EvGetSpaces]) /\
  fst (Provision (Stub.client Stub.createFails) Background "instance-1"
         (brokerapi.ProvisionDetails.mk "s1" "p1" "" "") true Stub.start) =
  (brokerapi.ProvisionedServiceSpec.zero, Some Stub.unavailable).
Proof.
  split.
  - destruct (Provision_returns_upstream_errors_verbatim nat
                (Stub.client Scenario.spacesFail) Background "instance-1"
                (brokerapi.ProvisionDetails.mk "s1" "p1" "" "") true
                Stub.start eq_refl) as [H _].
    exact (H [Stub.sp1] [] Stub.unavailable 1 eq_refl).
  - destruct (Provision_returns_upstream_errors_verbatim nat
                (Stub.client Stub.createFails) Background "instance-1"
                (brokerapi.ProvisionDetails.mk "s1" "p1" "" "") true
                Stub.start eq_refl) as [_ H].
    exact (H Stub.sp1 [] [] 1 Stub.noInstance [] Stub.unavailable 2
             eq_refl eq_refl).
Defined.

(** ** [LastOperation], [Unbind] and the requests as a whole *)

(** X16. [LastOperation] fetches the instance whose GUID is
    [operationData], one call, and never reads [instanceID].  The state and
    the description it returns are those of the instance's last operation,
    unchanged; an error of the fetch is returned as it is with the empty
    result.  The broker is left as it was. *)
Theorem LastOperation_polls_by_operationData :
  forall (W : Type) (cc : Client W) (context : Context)
         (instanceID operationData : string) (st : State W)
         serviceInstance wn err w,
    api_GetServiceInstance cc operationData (world st) =
    ((serviceInstance, wn, err), w) ->
    LastOperation cc context instanceID operationData st =
    (match err with
     | Some e => (brokerapi.LastOperation.zero, Some e)
     | None =>
         (brokerapi.LastOperation.mk
            (ccv2.LastOperation.State
               (ccv2.ServiceInstance.LastOperation serviceInstance))
            (ccv2.LastOperation.Description
               (ccv2.ServiceInstance.LastOperation serviceInstance)),
          None)
     end,
     mkState (broker st) w (calls st ++ [EvGetServiceInstance operationData])).
Proof.
  intros W cc context instanceID operationData st serviceInstance wn err w G.
  unfold LastOperation, GetServiceInstance.
  rewrite bind_eq, call_eq, G. cbn [fst snd]. destruct err; reflexivity.
Qed.

(** Polling the stub with the GUID a provision returned, under another
    instance name. *)
Lemma LastOperation_polls_by_operationData_witness :
  LastOperation (Stub.client Stub.createWorks) Background "some-other-name"
    "instance-guid" Stub.start =
  ((brokerapi.LastOperation.mk "in progress" "creating", None),
   mkState newCFBrokerProxy 1 [EvGetServiceInstance "instance-guid"]).
Proof.
  exact (LastOperation_polls_by_operationData nat
           (Stub.client Stub.createWorks) Background "some-other-name"
           "instance-guid" Stub.start Stub.inProgress [] None 1 eq_refl).
Defined.

Lemma GetServiceKeys_issued {W : Type} (cc : Client W)
  (filters : list ccv2.Filter.t) (st : State W) :
  broker (snd (GetServiceKeys cc filters st)) = broker st /\
  existsb is_mutating (issued st (snd (GetServiceKeys cc filters st))) = false.
Proof.
  unfold_client. run; cbn [broker]; show_issued; split; reflexivity.
Qed.

(** X17. When the listing of keys returns an error, [Unbind] returns it
    as it is and deletes nothing, even when the listing hands back keys
    beside the error. *)
Theorem Unbind_returns_listing_error :
  forall (W : Type) (cc : Client W) (context : Context)
         (instanceID bindingID : string) (details : brokerapi.UnbindDetails.t)
         (st st1 : State W) keys wn e,
    GetServiceKeys cc [nameFilter bindingID] st = ((keys, wn, Some e), st1) ->
    Unbind cc context instanceID bindingID details st = (Some e, st1) /\
    broker st1 = broker st /\
    existsb is_mutating (issued st st1) = false.
Proof.
  intros W cc context instanceID bindingID details st st1 keys wn e G.
  destruct (GetServiceKeys_issued cc [nameFilter bindingID] st) as [HB HI].
  rewrite G in HB, HI. cbn [snd] in HB, HI.
  split; [|split; assumption].
  unfold Unbind. rewrite bind_eq, G. reflexivity.
Qed.

(** The key listing of the stub reads "key-guid-1" and fails: the key is
    not deleted. *)
Lemma Unbind_returns_listing_error_witness :
  Unbind (Stub.client Scenario.keysFail) Background "instance-1" "binding-1"
    (brokerapi.UnbindDetails.mk "p1" "s1") Stub.start =
  (Some Stub.unavailable,
   mkState newCFBrokerProxy 1
     [EvPaginate (keysRequest (Stub.client Scenario.keysFail) "binding-1")]).
Proof.
  exact (proj1 (Unbind_returns_listing_error nat
                  (Stub.client Scenario.keysFail) Background "instance-1"
                  "binding-1" (brokerapi.UnbindDetails.mk "p1" "s1")
                  Stub.start _ [Stub.key1] [] Stub.unavailable eq_refl)).
Defined.

(** X18. The broker keeps no state but its two caches, and each has one
    writer: whatever the outcome, [Services] leaves the space identifier
    as it was, [Provision] leaves the catalog as it was, and [Deprovision],
    [Bind], [Unbind], [LastOperation] and [Update] leave both as they
    were. *)
Theorem each_cache_has_one_writer :
  forall (W : Type) (cc : Client W) (op : Operation) (st : State W),
    match op with
    | OpServices _ =>
        SpaceGUID (broker (snd (serve cc op st))) = SpaceGUID (broker st)
    | OpProvision _ _ _ _ =>
        Catalog (broker (snd (serve cc op st))) = Catalog (broker st)
    | _ => broker (snd (serve cc op st)) = broker st
    end.
Proof.
  intros W cc op st. rewrite snd_serve. destruct op.
  - apply Services_SpaceGUID.
  - apply Provision_Catalog.
  - apply Deprovision_broker.
  - apply Bind_broker.
  - apply Unbind_broker.
  - apply LastOperation_broker.
  - reflexivity.
Qed.

Ltac show_budget :=
  show_issued;
  first
    [ exists [], []; repeat split; simpl; lia
    | refine (ex_intro _ [_] (ex_intro _ [] _));
      split; [reflexivity|]; split; [simpl; lia|];
      split; [reflexivity|simpl; lia]
    | refine (ex_intro _ [] (ex_intro _ [_] _));
      split; [reflexivity|]; split; [simpl; lia|];
      split; [reflexivity|simpl; lia]
    | refine (ex_intro _ [_] (ex_intro _ [_] _));
      split; [reflexivity|]; split; [simpl; lia|];
      split; [reflexivity|simpl; lia] ].

(** X19. Every request other than the catalog issues at most two calls,
    and only the last of them can create or delete something: what comes
    first is at most one lookup, what comes last at most one call. *)
Theorem requests_resolve_then_mutate :
  forall (W : Type) (cc : Client W) (op : Operation) (st : State W),
    (forall context, op <> OpServices context) ->
    exists lookups last,
      issued st (snd (serve cc op st)) = lookups ++ last /\
      List.length lookups <= 1 /\
      existsb is_mutating lookups = false /\
      List.length last <= 1.
Proof.
  intros W cc op st H. rewrite snd_serve. destruct op.
  - now elim (H context).
  - unfold Provision, getSpaceGUID, setSpaceGUID. unfold_client.
    run; show_budget.
  - unfold Deprovision, findFirstServiceInstanceWithName. unfold_client.
    run; show_budget.
  - unfold Bind, findFirstServiceInstanceWithName. unfold_client.
    run; show_budget.
  - unfold Unbind. unfold_client. run; show_budget.
  - unfold LastOperation. unfold_client. run; show_budget.
  - show_budget.
Qed.

(** A provision on the stub: the space lookup, then the create call. *)
Lemma requests_resolve_then_mutate_witness :
  exists lookups last,
    issued Stub.start
      (snd (serve (Stub.client Stub.createWorks)
              (OpProvision Background "instance-1"
                 (brokerapi.ProvisionDetails.mk "s1" "p1" "" "") true)
              Stub.start)) = lookups ++ last /\
    List.length lookups <= 1 /\
    existsb is_mutating lookups = false /\
    List.length last <= 1.
Proof.
  apply (requests_resolve_then_mutate nat (Stub.client Stub.createWorks)
           (OpProvision Background "instance-1"
              (brokerapi.ProvisionDetails.mk "s1" "p1" "" "") true)
           Stub.start).
  intros context. discriminate.
Defined.
